(** * WiFi Connector: scanner, cache and connection controller

    A shallow embedding of the WiFi subsystem of the extension
    (src/services/wifi-scanner.ts, src/services/wifi-connector.ts,
    src/utils/cache.ts, src/utils/keychain.ts, src/utils/password-storage.ts,
    src/utils/signal.ts, src/hooks/useWiFiNetworks.ts, the handlers of
    src/index.tsx and the text of src/components/QRCodeView.tsx),
    followed by the properties the specification states about it and by
    further properties of the code.

    Conventions.  A JavaScript string is a [string] of code units; the
    code units that matter to the program (the separators, the white
    space of [trim] and of the class \s, digits, letters) are all below
    256.  A JavaScript number that the program only ever obtains from
    [parseInt] of a digit run, from [Date.now()] or from a literal is an
    integer of [Z].  [undefined] and [null] are [None]. *)

From stdpp Require Import gmap strings list.
From Stdlib Require Import ZArith Ascii Permutation Sorted.

Local Open Scope Z_scope.

(** ** JavaScript string primitives used by the program *)

Module JS.

(** White space of [String.prototype.trim] and of the regular
    expression class \s, among the code units below 256: TAB, LF, VT,
    FF, CR, SPACE and NBSP. *)
Definition isWhiteSpace (c : ascii) : bool :=
  let n := N_of_ascii c in
  ((n =? 9) || (n =? 10) || (n =? 11) || (n =? 12) || (n =? 13)
   || (n =? 32) || (n =? 160))%N.

(** The class \d. *)
Definition isDigit (c : ascii) : bool :=
  let n := N_of_ascii c in ((48 <=? n) && (n <=? 57))%N.

(** The class [A-Za-z0-9\-_]. *)
Definition isIdentChar (c : ascii) : bool :=
  let n := N_of_ascii c in
  (((65 <=? n) && (n <=? 90)) || ((97 <=? n) && (n <=? 122))
   || ((48 <=? n) && (n <=? 57)) || (n =? 45) || (n =? 95))%N.

(** [s === t] on strings. *)
Definition strictEq (s t : string) : bool := String.eqb s t.

(** A string is truthy when it is not empty. *)
Definition truthy (s : string) : bool :=
  match s with EmptyString => false | String _ _ => true end.

(** [o || d] for an optional string [o]: [undefined], [null] and the
    empty string all fall through to [d]. *)
Definition orElse (o : option string) (d : string) : string :=
  match o with
  | Some (String _ _ as s) => s
  | _ => d
  end.

(** [o || null]. *)
Definition orNull (o : option string) : option string :=
  match o with
  | Some (String _ _ as s) => Some s
  | _ => None
  end.

Fixpoint trimStart (s : string) : string :=
  match s with
  | EmptyString => EmptyString
  | String c r => if isWhiteSpace c then trimStart r else s
  end.

Fixpoint trimEnd (s : string) : string :=
  match s with
  | EmptyString => EmptyString
  | String c r =>
      match trimEnd r with
      | EmptyString => if isWhiteSpace c then EmptyString else String c EmptyString
      | r' => String c r'
      end
  end.

(** [s.trim()]. *)
Definition trim (s : string) : string := trimEnd (trimStart s).

(** [s.startsWith(p)]. *)
Definition startsWith (s p : string) : bool := String.prefix p s.

(** [s.includes(sub)]. *)
Fixpoint includes (s sub : string) : bool :=
  if String.prefix sub s then true
  else match s with
       | EmptyString => false
       | String _ r => includes r sub
       end.

(** Put a code unit in front of the first piece of a split. *)
Definition consHead (c : ascii) (ps : list string) : list string :=
  match ps with
  | [] => [String c EmptyString]
  | p :: ps' => String c p :: ps'
  end.

(** [s.split(sep)] for a one code unit separator. *)
Fixpoint splitChar (sep : ascii) (s : string) : list string :=
  match s with
  | EmptyString => [EmptyString]
  | String c r =>
      if Ascii.eqb c sep then EmptyString :: splitChar sep r
      else consHead c (splitChar sep r)
  end.

(** [s.split(": ")]: the occurrences of the separator are found from
    the left and do not overlap. *)
Fixpoint splitColonSpace (s : string) : list string :=
  match s with
  | EmptyString => [EmptyString]
  | String c r =>
      match r with
      | String d r' =>
          if Ascii.eqb c ":" && Ascii.eqb d " "
          then EmptyString :: splitColonSpace r'
          else consHead c (splitColonSpace r)
      | EmptyString => consHead c (splitColonSpace r)
      end
  end.

(** [s.replace(/:$/, empty)]: without the m flag the anchor is the end
    of the string, so at most the last code unit is removed. *)
Fixpoint stripTrailingColon (s : string) : string :=
  match s with
  | EmptyString => EmptyString
  | String c EmptyString => if Ascii.eqb c ":" then EmptyString else s
  | String c r => String c (stripTrailingColon r)
  end.

(** [s.search(/\S/)]: index of the first code unit that is not white
    space, -1 when there is none. *)
Fixpoint searchNonSpace (s : string) : Z :=
  match s with
  | EmptyString => -1
  | String c r =>
      if isWhiteSpace c then
        (let k := searchNonSpace r in if k <? 0 then -1 else k + 1)
      else 0
  end.

(** [s.split(/\s+/)[0]]: the code units before the first white space
    (the whole string when there is none, the empty string when the
    string starts with white space or is empty). *)
Fixpoint firstToken (s : string) : string :=
  match s with
  | EmptyString => EmptyString
  | String c r => if isWhiteSpace c then EmptyString else String c (firstToken r)
  end.

Definition digitValue (c : ascii) : Z := Z.of_N (N_of_ascii c) - 48.

(** Value of the longest run of digits at the front of [s], continuing
    the decimal numeral [acc]. *)
Fixpoint digitRun (acc : Z) (s : string) : Z :=
  match s with
  | EmptyString => acc
  | String c r => if isDigit c then digitRun (10 * acc + digitValue c) r else acc
  end.

(** [parseInt(s.match(/-?\d+/)[0])], [None] when the match is null.
    The leftmost match starts at the first digit, or at a minus sign
    directly in front of it.  The value is the exact integer of the
    digit run; [parseInt] returns it as a double, which is that same
    integer as long as it is at most 2^53 in absolute value and is
    rounded beyond, so the properties that compare readings are
    stated for readings within that range. *)
Fixpoint matchSignedInt (s : string) : option Z :=
  match s with
  | EmptyString => None
  | String c r =>
      if isDigit c then Some (digitRun 0 s)
      else if Ascii.eqb c "-" then
        match r with
        | String d _ => if isDigit d then Some (- digitRun 0 r) else matchSignedInt r
        | EmptyString => None
        end
      else matchSignedInt r
  end.

(** [s.replace(/c/g, rep)] for a pattern that is one literal code
    unit and a replacement without substitution patterns. *)
Fixpoint replaceAllChar (c : ascii) (rep : string) (s : string) : string :=
  match s with
  | EmptyString => EmptyString
  | String d r =>
      if Ascii.eqb d c then rep +:+ replaceAllChar c rep r
      else String d (replaceAllChar c rep r)
  end.

(** [s.toLowerCase()] on the letters A-Z. *)
Definition lowerChar (c : ascii) : ascii :=
  let n := N_of_ascii c in
  if ((65 <=? n) && (n <=? 90))%N then ascii_of_N (n + 32) else c.

Fixpoint toLowerCase (s : string) : string :=
  match s with
  | EmptyString => EmptyString
  | String c r => String (lowerChar c) (toLowerCase r)
  end.

End JS.

(** ** Data model (src/types/wifi.ts) *)

Record WiFiNetwork := mkWiFiNetwork {
  ssid : string;
  rssi : Z;
  security : string;
  channel : string;
  bssid : string;
  isConnected : bool
}.

Record CachedData := mkCachedData {
  version : Z;
  networks : list WiFiNetwork;
  currentSSID : string;
  timestamp : Z
}.

(** [Partial<WiFiNetwork>], the accumulator of the scanner. *)
Record PartialNetwork := mkPartial {
  p_ssid : option string;
  p_rssi : option Z;
  p_security : option string;
  p_channel : option string;
  p_bssid : option string
}.

(** ** The scanner (src/services/wifi-scanner.ts) *)

Module Scanner.

Record ScanResult := mkScanResult {
  currentNetwork : string;
  availableNetworks : list WiFiNetwork
}.

(** What [execSync] does: it returns the captured standard output, or
    throws (non-zero exit status, timeout, buffer overflow). *)
Inductive ExecResult :=
| Stdout (output : string)
| Throws (error : string).

(** First pass of [scanNetworksAndGetCurrent]: the loop that extracts
    the current network.  [found] is [foundCurrentNetwork]; leaving
    the loop by [break] or by exhaustion returns [currentNetwork]. *)
Fixpoint findCurrentNetwork (found : bool) (lines : list string) : string :=
  match lines with
  | [] => EmptyString
  | line :: rest =>
      if JS.includes line "Current Network Information:" then
        findCurrentNetwork true rest
      else if found &&
              match JS.trim line with
              | String c _ => JS.isIdentChar c
              | EmptyString => false
              end
      then JS.stripTrailingColon (JS.trim line)
      else if found && JS.includes line ":" && negb (JS.startsWith line "        ")
      then EmptyString
      else findCurrentNetwork found rest
  end.

(** The mutable variables of the second pass. *)
Record LoopState := mkLoopState {
  inNetworkSection : bool;
  currentEntry : PartialNetwork;
  networkIndent : Z;
  collected : list WiFiNetwork
}.

Definition emptyEntry : PartialNetwork := mkPartial None None None None None.

Definition initialLoopState : LoopState := mkLoopState false emptyEntry 0 [].

(** [currentEntry.rssi || -70]. *)
Definition rssiOrDefault (o : option Z) : Z :=
  match o with
  | Some v => if v =? 0 then -70 else v
  | None => -70
  end.

(** The guarded [networks.push({...})], shared by the loop and by the
    flush after the loop. *)
Definition pushIfComplete (current : string) (e : PartialNetwork)
    (acc : list WiFiNetwork) : list WiFiNetwork :=
  match p_ssid e, p_channel e with
  | Some (String _ _ as s), Some (String _ _ as c) =>
      acc ++ [ {| ssid := s;
                  rssi := rssiOrDefault (p_rssi e);
                  security := JS.orElse (p_security e) "Unknown";
                  channel := c;
                  bssid := JS.orElse (p_bssid e) (s +:+ "-" +:+ c);
                  isConnected := JS.strictEq s current |} ]
  | _, _ => acc
  end.

(** [trimmed.split(": ")[1]?.trim()]. *)
Definition propertyValue (trimmed : string) : option string :=
  option_map JS.trim (nth_error (JS.splitColonSpace trimmed) 1).

(** The property branch of the loop body. *)
Definition setProperty (trimmed : string) (e : PartialNetwork) : PartialNetwork :=
  if JS.startsWith trimmed "Security:" then
    mkPartial (p_ssid e) (p_rssi e)
              (Some (JS.orElse (propertyValue trimmed) "Unknown"))
              (p_channel e) (p_bssid e)
  else if JS.startsWith trimmed "Channel:" then
    let channelPart := JS.orElse (propertyValue trimmed) EmptyString in
    mkPartial (p_ssid e) (p_rssi e) (p_security e)
              (Some (JS.firstToken channelPart)) (p_bssid e)
  else if JS.includes trimmed "Signal / Noise:" then
    mkPartial (p_ssid e)
              (Some (match JS.matchSignedInt trimmed with
                     | Some v => v
                     | None => -70
                     end))
              (p_security e) (p_channel e) (p_bssid e)
  else if JS.startsWith trimmed "BSSID:" || JS.startsWith trimmed "MAC Address:" then
    mkPartial (p_ssid e) (p_rssi e) (p_security e) (p_channel e)
              (Some (JS.orElse (propertyValue trimmed) EmptyString))
  else e.

Definition hasPropertyFormat (trimmed : string) : bool :=
  JS.includes trimmed ": " && (length (JS.splitColonSpace trimmed) =? 2)%nat.

(** The loop body from the computation of the indentation on, for a
    line of the network section that is not blank. *)
Definition classifyLine (current : string) (line trimmed : string)
    (st : LoopState) : LoopState :=
  let currentIndent := JS.searchNonSpace line in
  if negb (hasPropertyFormat trimmed) && (0 <? String.length trimmed)%nat then
    let indent :=
      if networkIndent st =? 0 then currentIndent else networkIndent st in
    if currentIndent =? indent then
      mkLoopState (inNetworkSection st)
                  (mkPartial (Some (JS.stripTrailingColon trimmed)) None None None None)
                  indent
                  (pushIfComplete current (currentEntry st) (collected st))
    else
      mkLoopState (inNetworkSection st) (currentEntry st) indent (collected st)
  else if hasPropertyFormat trimmed &&
          match p_ssid (currentEntry st) with
          | Some s => JS.truthy s
          | None => false
          end
  then
    mkLoopState (inNetworkSection st) (setProperty trimmed (currentEntry st))
                (networkIndent st) (collected st)
  else st.

(** [line.length > 0 && line[0] !== " " && line.includes(":")]. *)
Definition isMajorSection (line : string) : bool :=
  match line with
  | EmptyString => false
  | String c _ => negb (Ascii.eqb c " ") && JS.includes line ":"
  end.

(** Second pass: the loop over the lines. *)
Fixpoint scanLines (current : string) (lines : list string) (st : LoopState)
    : LoopState :=
  match lines with
  | [] => st
  | line :: rest =>
      let trimmed := JS.trim line in
      if JS.includes trimmed "Other Local Wi-Fi Networks:" then
        scanLines current rest
          (mkLoopState true (currentEntry st) (networkIndent st) (collected st))
      else if negb (inNetworkSection st) then scanLines current rest st
      else if isMajorSection line then st
      else if JS.strictEq trimmed EmptyString then scanLines current rest st
      else scanLines current rest (classifyLine current line trimmed st)
  end.

(** [networks] as it stands before the duplicates are removed: the
    loop followed by the flush of the last entry. *)
Definition parseNetworks (current : string) (lines : list string)
    : list WiFiNetwork :=
  let st := scanLines current lines initialLoopState in
  pushIfComplete current (currentEntry st) (collected st).

(** [self.findIndex(p)]. *)
Fixpoint findIndex {A} (p : A -> bool) (l : list A) : Z :=
  match l with
  | [] => -1
  | x :: r =>
      if p x then 0
      else let k := findIndex p r in if k <? 0 then -1 else k + 1
  end.

(** [self.filter((x, index) => p x index)], from position [i] on. *)
Fixpoint filterIndexed {A} (p : A -> Z -> bool) (i : Z) (l : list A) : list A :=
  match l with
  | [] => []
  | x :: r =>
      if p x i then x :: filterIndexed p (i + 1) r
      else filterIndexed p (i + 1) r
  end.

Definition sameNetwork (network n : WiFiNetwork) : bool :=
  JS.strictEq (ssid n) (ssid network) && JS.strictEq (channel n) (channel network).

(** Remove duplicates based on SSID + Channel combination. *)
Definition uniqueNetworks (self : list WiFiNetwork) : list WiFiNetwork :=
  filterIndexed (fun network index => index =? findIndex (sameNetwork network) self)
                0 self.

(** [sort((a, b) => b.rssi - a.rssi)]: the sort of the platform is
    stable, so an element goes in front of the first element that is
    not stronger than it. *)
Fixpoint insertByRssi (x : WiFiNetwork) (l : list WiFiNetwork) : list WiFiNetwork :=
  match l with
  | [] => [x]
  | y :: r => if rssi y - rssi x <=? 0 then x :: l else y :: insertByRssi x r
  end.

Fixpoint sortByRssi (l : list WiFiNetwork) : list WiFiNetwork :=
  match l with
  | [] => []
  | x :: r => insertByRssi x (sortByRssi r)
  end.

(** The body of the [try] block once the report is at hand. *)
Definition parseReport (output : string) : ScanResult :=
  let lines := JS.splitChar "010" output in
  let current := findCurrentNetwork false lines in
  let nets := parseNetworks current lines in
  {| currentNetwork := current;
     availableNetworks := sortByRssi (uniqueNetworks nets) |}.

(** [scanNetworksAndGetCurrent], given what [execSync] did. *)
Definition scanNetworksAndGetCurrent (r : ExecResult) : ScanResult :=
  match r with
  | Stdout output => parseReport output
  | Throws _ => {| currentNetwork := EmptyString; availableNetworks := [] |}
  end.

End Scanner.

(** ** The effectful layer: cache, credentials, connector, handlers *)

Module App.

Inductive ToastStyle := Animated | Failure | Success.

(** What the program does to its environment, in the order it does it. *)
Inductive Event :=
| EvExec (command : string)
| EvStorageGet (key : string)
| EvToast (style : ToastStyle) (title : string) (message : option string)
| EvConsoleError (context : string).

(** The mutable world of the extension: the Raycast [Cache], the
    Raycast [LocalStorage], the clock read by [Date.now()], the React
    state of the hook and of the command, and the trace of effects. *)
Record World := mkWorld {
  cache : gmap string string;
  storage : gmap string string;
  clock : Z;
  hookNetworks : list WiFiNetwork;
  isLoading : bool;
  hookCurrentSSID : string;
  selectedNetwork : option WiFiNetwork;
  log : list Event
}.

Definition M (A : Type) : Type := World -> A * World.

Definition ret {A} (a : A) : M A := fun w => (a, w).

Definition bind {A B} (m : M A) (k : A -> M B) : M B :=
  fun w => let (a, w') := m w in k a w'.

Notation "'let!' x ':=' m 'in' k" := (bind m (fun x => k))
  (at level 10, x name, m at level 100, k at level 200).
Notation "m ;; k" := (bind m (fun _ => k))
  (at level 100, k at level 200, right associativity).

Definition emit (e : Event) : M unit :=
  fun w => (tt, mkWorld (cache w) (storage w) (clock w) (hookNetworks w)
                        (isLoading w) (hookCurrentSSID w) (selectedNetwork w)
                        (log w ++ [e])).

Definition withCache (f : gmap string string -> gmap string string) : M unit :=
  fun w => (tt, mkWorld (f (cache w)) (storage w) (clock w) (hookNetworks w)
                        (isLoading w) (hookCurrentSSID w) (selectedNetwork w)
                        (log w)).

Definition withStorage (f : gmap string string -> gmap string string) : M unit :=
  fun w => (tt, mkWorld (cache w) (f (storage w)) (clock w) (hookNetworks w)
                        (isLoading w) (hookCurrentSSID w) (selectedNetwork w)
                        (log w)).

(** The clock moves on its own; [setClock] is how time passes between
    two calls of the program. *)
Definition setClock (t : Z) (w : World) : World :=
  mkWorld (cache w) (storage w) t (hookNetworks w)
          (isLoading w) (hookCurrentSSID w) (selectedNetwork w) (log w).

Definition setNetworks (ns : list WiFiNetwork) : M unit :=
  fun w => (tt, mkWorld (cache w) (storage w) (clock w) ns
                        (isLoading w) (hookCurrentSSID w) (selectedNetwork w)
                        (log w)).

Definition setIsLoading (b : bool) : M unit :=
  fun w => (tt, mkWorld (cache w) (storage w) (clock w) (hookNetworks w)
                        b (hookCurrentSSID w) (selectedNetwork w) (log w)).

Definition setCurrentSSID (s : string) : M unit :=
  fun w => (tt, mkWorld (cache w) (storage w) (clock w) (hookNetworks w)
                        (isLoading w) s (selectedNetwork w) (log w)).

Definition setSelectedNetwork (n : option WiFiNetwork) : M unit :=
  fun w => (tt, mkWorld (cache w) (storage w) (clock w) (hookNetworks w)
                        (isLoading w) (hookCurrentSSID w) n (log w)).

Definition showToast (style : ToastStyle) (title : string)
    (message : option string) : M unit :=
  emit (EvToast style title message).

Section Platform.

(** The operating system and the runtime, as the program sees them:
    what a command does when run through [execSync] ([Throws e]
    carries [String(error)]), [JSON.stringify] on a cache entry
    and on a string, and [JSON.parse] read at the type the program
    gives its result ([None] when [JSON.parse] throws). *)
Variable execSync : string -> Scanner.ExecResult.
Variable JSON_stringify : CachedData -> string.
Variable JSON_parse : string -> option CachedData.
Variable JSON_stringify_string : string -> string.

Definition runExec (command : string) : M Scanner.ExecResult :=
  emit (EvExec command) ;; ret (execSync command).

(** *** src/utils/cache.ts *)

Definition CACHE_KEY : string := "wifi-networks".
Definition CACHE_VERSION : Z := 3.
Definition CACHE_DURATION : Z := 5000.

Definition getCachedNetworks : M (option CachedData) :=
  fun w =>
    match JS.orNull (cache w !! CACHE_KEY) with
    | None => (None, w)
    | Some cachedData =>
        match JSON_parse cachedData with
        | Some parsed =>
            let cacheAge := clock w - timestamp parsed in
            if (version parsed =? CACHE_VERSION) && (cacheAge <? CACHE_DURATION)
            then (Some parsed, w)
            else (None, w)
        | None =>
            (emit (EvConsoleError "Failed to parse cached data:") ;; ret None) w
        end
    end.

Definition setCachedNetworks (nets : list WiFiNetwork) (current : string) : M unit :=
  fun w =>
    let data := {| version := CACHE_VERSION;
                   networks := nets;
                   currentSSID := current;
                   timestamp := clock w |} in
    withCache (insert CACHE_KEY (JSON_stringify data)) w.

Definition clearNetworksCache : M unit := withCache (delete CACHE_KEY).

(** *** src/utils/password-storage.ts *)

Definition STORAGE_KEY_PREFIX : string := "wifi-password-".

Definition savePassword (ssid password : string) : M unit :=
  withStorage (insert (STORAGE_KEY_PREFIX +:+ ssid) password).

Definition getSavedPassword (ssid : string) : M (option string) :=
  let key := STORAGE_KEY_PREFIX +:+ ssid in
  emit (EvStorageGet key) ;;
  fun w => (JS.orNull (storage w !! key), w).

Definition hasSavedPassword (ssid : string) : M bool :=
  let! password := getSavedPassword ssid in
  ret (match password with Some _ => true | None => false end).

Definition forgetPassword (ssid : string) : M unit :=
  withStorage (delete (STORAGE_KEY_PREFIX +:+ ssid)).

(** *** src/utils/keychain.ts *)

Definition fetchPasswordFromKeychain (ssid : string) : M (option string) :=
  let command :=
    "security find-generic-password -wa " +:+ JSON_stringify_string ssid in
  let! r := runExec command in
  match r with
  | Scanner.Stdout out => ret (JS.orNull (Some (JS.trim out)))
  | Scanner.Throws _ => ret None
  end.

(** *** src/services/wifi-connector.ts *)

Record ConnectionResult := mkResult {
  success : bool;
  message : string;
  requiresPassword : option bool;
  usedSavedPassword : option bool
}.

Definition isOpenNetwork (network : WiFiNetwork) : bool :=
  JS.strictEq (security network) "Open"
  || JS.strictEq (security network) "OPEN"
  || JS.strictEq (security network) "None".

(** The double quote, as a string of one code unit. *)
Definition dquote : string := String "034" EmptyString.

Definition backslash : ascii := "092".

Definition escapePassword (password : string) : string :=
  JS.replaceAllChar "`" (String backslash "`")
    (JS.replaceAllChar "$" (String backslash "$")
       (JS.replaceAllChar "034" (String backslash dquote) password)).

Definition openCommand (wifiInterface ssid : string) : string :=
  "/usr/sbin/networksetup -setairportnetwork " +:+ wifiInterface
    +:+ " " +:+ dquote +:+ ssid +:+ dquote.

Definition securedCommand (wifiInterface ssid escapedPassword : string) : string :=
  "/usr/sbin/networksetup -setairportnetwork " +:+ wifiInterface
    +:+ " " +:+ dquote +:+ ssid +:+ dquote
    +:+ " " +:+ dquote +:+ escapedPassword +:+ dquote.

(** The [catch] block: classification of [String(error)]. *)
Definition classifyError (errorMsg : string) : ConnectionResult :=
  if JS.includes errorMsg "password" || JS.includes errorMsg "authentication" then
    mkResult false "Incorrect password or authentication failed" None None
  else if JS.includes errorMsg "network" || JS.includes errorMsg "not found" then
    mkResult false "Network not available" None None
  else mkResult false errorMsg None None.

(** [execSync(command, ...)] and what follows it in the [try] block. *)
Definition runConnect (network : WiFiNetwork) (command : string)
    : M ConnectionResult :=
  let! r := runExec command in
  match r with
  | Scanner.Stdout _ =>
      ret (mkResult true ("Connected to " +:+ ssid network) None None)
  | Scanner.Throws errorMsg => ret (classifyError errorMsg)
  end.

Definition connectToNetwork (network : WiFiNetwork) (wifiInterface : string)
    (password : option string) : M ConnectionResult :=
  if isOpenNetwork network then
    runConnect network (openCommand wifiInterface (ssid network))
  else
    match password with
    | Some (String _ _ as pw) =>
        let escapedPassword := escapePassword pw in
        runConnect network
          (securedCommand wifiInterface (ssid network) escapedPassword)
    | _ =>
        ret (mkResult false "Password required for this network" (Some true) None)
    end.

Definition tryConnectWithSavedPassword (network : WiFiNetwork)
    (wifiInterface : string) : M ConnectionResult :=
  if isOpenNetwork network then connectToNetwork network wifiInterface None
  else
    let! savedPassword := getSavedPassword (ssid network) in
    match savedPassword with
    | Some (String _ _ as pw) =>
        let! result := connectToNetwork network wifiInterface (Some pw) in
        if success result then
          ret (mkResult (success result) (message result)
                        (requiresPassword result) (Some true))
        else
          ret (mkResult false "Saved password didn't work" (Some true) None)
    | _ =>
        ret (mkResult false "Password required for this network" (Some true) None)
    end.

(** *** src/hooks/useWiFiNetworks.ts *)

Definition scanCommand : string :=
  "/usr/sbin/system_profiler SPAirPortDataType 2>/dev/null".

(** [scanNetworksAndGetCurrent()] with its subprocess. *)
Definition runScan : M Scanner.ScanResult :=
  let! r := runExec scanCommand in
  match r with
  | Scanner.Stdout _ => ret (Scanner.scanNetworksAndGetCurrent r)
  | Scanner.Throws _ =>
      emit (EvConsoleError "System profiler scan failed:") ;;
      ret (Scanner.scanNetworksAndGetCurrent r)
  end.

Definition loadNetworks : M unit :=
  let! cachedData := getCachedNetworks in
  match cachedData with
  | Some d =>
      setNetworks (networks d) ;;
      setCurrentSSID (currentSSID d) ;;
      setIsLoading false ;;
      setIsLoading false
  | None =>
      setIsLoading true ;;
      let! scan := runScan in
      setCurrentSSID (Scanner.currentNetwork scan) ;;
      setNetworks (Scanner.availableNetworks scan) ;;
      setCachedNetworks (Scanner.availableNetworks scan)
                        (Scanner.currentNetwork scan) ;;
      setIsLoading false
  end.

Definition forceRefresh : M unit :=
  clearNetworksCache ;;
  loadNetworks ;;
  showToast Success "Networks Refreshed" None.

(** *** src/index.tsx *)

(** The guard at the head of [handleConnect]: no password at hand
    and a label that is neither Open nor OPEN. *)
Definition showsPasswordForm (network : WiFiNetwork) (password : option string)
    : bool :=
  negb (match password with Some pw => JS.truthy pw | None => false end)
  && negb (JS.strictEq (security network) "Open")
  && negb (JS.strictEq (security network) "OPEN").

Definition handleConnect (wifiInterface : string) (network : WiFiNetwork)
    (password : option string) : M unit :=
  if showsPasswordForm network password
  then setSelectedNetwork (Some network)
  else
    showToast Animated ("Connecting to " +:+ ssid network +:+ "...") None ;;
    let! result := connectToNetwork network wifiInterface password in
    if negb (success result) then
      showToast Failure "Connection Failed" (Some (message result))
    else
      showToast Success (message result) None ;;
      clearNetworksCache ;;
      loadNetworks ;;
      setSelectedNetwork None.

End Platform.

End App.

(** ** Further parts of the extension *)

(** *** src/utils/signal.ts *)

Module Signal.

(** The four icons are made of the block elements U+2582, U+2584,
    U+2586 and U+2588, which lie outside the code units the rest of
    the program looks at; the literals are kept as they are written
    in the source file, in UTF-8 (three bytes for each bar). *)
Definition getSignalIcon (rssi : Z) : string :=
  if -50 <=? rssi then "▂▄▆█"
  else if -60 <=? rssi then "▂▄▆"
  else if -70 <=? rssi then "▂▄"
  else "▂".

End Signal.

(** *** src/utils/password-storage.ts, [clearAllPasswords] *)

Module Storage.
Import App.

(** The [for] loop over [passwordKeys]. *)
Fixpoint removeItems (keys : list string) : M unit :=
  match keys with
  | [] => ret tt
  | key :: rest => withStorage (delete key) ;; removeItems rest
  end.

(** [Object.keys(items)] is the list of the keys of the store; the
    order in which the platform lists them is not used by the loop. *)
Definition clearAllPasswords : M unit :=
  fun w =>
    let items := storage w in
    let passwordKeys :=
      List.filter (fun key => JS.startsWith key STORAGE_KEY_PREFIX)
                  (map fst (map_to_list items)) in
    removeItems passwordKeys w.

End Storage.

(** *** src/utils/keychain.ts, [restoreRaycastFocus] *)

Module Keychain.
Import App.

Definition openRaycast : string := "open -a Raycast".

Definition osascriptRaycast : string :=
  "osascript -e 'tell application " +:+ dquote +:+ "System Events" +:+ dquote
    +:+ " to set frontmost of process " +:+ dquote +:+ "Raycast" +:+ dquote
    +:+ " to true'".

Section Platform.

Variable execSync : string -> Scanner.ExecResult.

Definition restoreRaycastFocus : M unit :=
  let! r := runExec execSync openRaycast in
  match r with
  | Scanner.Stdout _ => ret tt
  | Scanner.Throws _ =>
      let! r' := runExec execSync osascriptRaycast in
      ret tt
  end.

End Platform.

End Keychain.

(** *** src/components/QRCodeView.tsx *)

Module QRCodeView.

(** [toUpperCase] on the letters a-z.  The other code units below 256
    have an upper case that is either outside the ASCII letters or
    (for the sharp s) the pair SS, which no comparison made on the
    result below (with WPA, PSK, WEP, OPEN and NONE) can tell from the
    code unit left as it is. *)
Definition upperChar (c : ascii) : ascii :=
  let n := N_of_ascii c in
  if ((97 <=? n) && (n <=? 122))%N then ascii_of_N (n - 32) else c.

Fixpoint toUpperCase (s : string) : string :=
  match s with
  | EmptyString => EmptyString
  | String c r => String (upperChar c) (toUpperCase r)
  end.

Definition getSecurityType (security : string) : string :=
  let securityUpper := toUpperCase security in
  if JS.includes securityUpper "WPA" || JS.includes securityUpper "PSK" then "WPA"
  else if JS.includes securityUpper "WEP" then "WEP"
  else if JS.strictEq securityUpper "OPEN" || JS.strictEq securityUpper "NONE"
  then "nopass"
  else "WPA".

(** The class of the pattern: backslash, semicolon, comma, double
    quote, colon and full stop. *)
Definition isSpecialChar (c : ascii) : bool :=
  Ascii.eqb c App.backslash || Ascii.eqb c ";" || Ascii.eqb c ","
  || Ascii.eqb c "034" || Ascii.eqb c ":" || Ascii.eqb c ".".

(** [str.replace] with the global pattern made of that one class and
    the replacement that puts a backslash in front of the match: one
    pass over the string. *)
Fixpoint escapeSpecialChars (str : string) : string :=
  match str with
  | EmptyString => EmptyString
  | String c r =>
      if isSpecialChar c then String App.backslash (String c (escapeSpecialChars r))
      else String c (escapeSpecialChars r)
  end.

(** The text that [generateQRCode] encodes. *)
Definition wifiString (network : WiFiNetwork) (password : string) : string :=
  "WIFI:T:" +:+ getSecurityType (security network)
    +:+ ";S:" +:+ escapeSpecialChars (ssid network)
    +:+ ";P:" +:+ escapeSpecialChars password
    +:+ ";H:false;;".

End QRCodeView.

(** *** src/index.tsx, the QR code handlers *)

Module Command.
Import App.

(** The state of the command: the world of the extension and the
    React state [qrCodeData]. *)
Record CommandState := mkCommandState {
  world : World;
  qrCodeData : option (WiFiNetwork * string)
}.

Definition C (A : Type) : Type := CommandState -> A * CommandState.

Definition lift {A} (m : M A) : C A :=
  fun s => let (a, w) := m (world s) in (a, mkCommandState w (qrCodeData s)).

Definition retC {A} (a : A) : C A := fun s => (a, s).

Definition bindC {A B} (m : C A) (k : A -> C B) : C B :=
  fun s => let (a, s') := m s in k a s'.

Definition setQrCodeData (d : option (WiFiNetwork * string)) : C unit :=
  fun s => (tt, mkCommandState (world s) d).

Section Platform.

Variable execSync : string -> Scanner.ExecResult.
Variable JSON_stringify_string : string -> string.

Definition handleCancelPassword : C unit := lift (setSelectedNetwork None).

Definition handleCloseQRCode : C unit := setQrCodeData None.

Definition handleShareQRCode (network : WiFiNetwork) : C unit :=
  if JS.strictEq (security network) "Open" || JS.strictEq (security network) "OPEN"
  then setQrCodeData (Some (network, EmptyString))
  else
    bindC (lift (showToast Animated "Fetching Password"
                   (Some "Retrieving password from Keychain..."))) (fun _ =>
    bindC (lift (fetchPasswordFromKeychain execSync JSON_stringify_string
                   (ssid network))) (fun password =>
    bindC (lift (Keychain.restoreRaycastFocus execSync)) (fun _ =>
    match password with
    | Some (String _ _ as pw) =>
        bindC (lift (showToast Success "QR Code Ready"
                       (Some "Generating QR code..."))) (fun _ =>
        setQrCodeData (Some (network, pw)))
    | _ =>
        lift (showToast Failure "Password Required"
                (Some "Password not found in Keychain. Please connect to the network first to save it in Keychain."))
    end))).

(** Which screen the command renders. *)
Inductive Screen :=
| ShowQRCode (network : WiFiNetwork) (password : string)
| ShowPasswordForm (network : WiFiNetwork)
| ShowList (isLoading : bool) (networks : list WiFiNetwork).

Definition render (s : CommandState) : Screen :=
  match qrCodeData s with
  | Some (network, password) => ShowQRCode network password
  | None =>
      match selectedNetwork (world s) with
      | Some network => ShowPasswordForm network
      | None => ShowList (isLoading (world s)) (hookNetworks (world s))
      end
  end.

End Platform.

End Command.

(** ** Vocabulary of the specification *)

Module Spec.

(** [a] occurs in [s] as a contiguous run. *)
Definition occursIn (a s : string) : Prop :=
  exists p q : string, s = p +:+ a +:+ q.

(** A record with both required fields. *)
Definition complete (n : WiFiNetwork) : Prop :=
  ssid n <> EmptyString /\ channel n <> EmptyString.

(** The key under which records are unique. *)
Definition networkKey (n : WiFiNetwork) : string * string := (ssid n, channel n).

Definition emptySnapshot : Scanner.ScanResult :=
  {| Scanner.currentNetwork := EmptyString; Scanner.availableNetworks := [] |}.

Definition currentHeader : string := "Current Network Information:".
Definition networksHeader : string := "Other Local Wi-Fi Networks:".

(** The specification's reading of an open security label: the label
    is Open under case-insensitive comparison, or is None. *)
Definition denotesOpen (label : string) : bool :=
  JS.strictEq (JS.toLowerCase label) (JS.toLowerCase "Open")
  || JS.strictEq label "None".

(** The shell metacharacters the specification names. *)
Definition isShellMeta (c : ascii) : bool :=
  Ascii.eqb c "034" || Ascii.eqb c "$" || Ascii.eqb c "`".

(** Every occurrence of a metacharacter prefixed with a backslash. *)
Fixpoint escapeEach (s : string) : string :=
  match s with
  | EmptyString => EmptyString
  | String c r =>
      if isShellMeta c then String App.backslash (String c (escapeEach r))
      else String c (escapeEach r)
  end.

(** The world after the events [e] have been added to its trace. *)
Definition logged (e : list App.Event) (w : App.World) : App.World :=
  App.mkWorld (App.cache w) (App.storage w) (App.clock w) (App.hookNetworks w)
              (App.isLoading w) (App.hookCurrentSSID w) (App.selectedNetwork w)
              (App.log w ++ e).

(** The result of [connectToNetwork] for what [execSync] did. *)
Definition outcome (network : WiFiNetwork) (r : Scanner.ExecResult)
    : App.ConnectionResult :=
  match r with
  | Scanner.Stdout _ =>
      App.mkResult true ("Connected to " +:+ ssid network) None None
  | Scanner.Throws errorMsg => App.classifyError errorMsg
  end.

(** *** Sample data *)

Definition sampleReport : string :=
  "Wi-Fi:
      Interfaces:
        en0:
          Status: Connected
          Current Network Information:
            HomeNet:
              PHY Mode: 802.11ax
              Channel: 36 (5GHz, 80MHz)
              Security: WPA2 Personal
              Signal / Noise: -52 dBm / -95 dBm
          Other Local Wi-Fi Networks:
            CafeWifi:
              PHY Mode: 802.11n
              Channel: 6 (2GHz, 20MHz)
              Security: None
              Signal / Noise: -71 dBm / -90 dBm
            HomeNet:
              PHY Mode: 802.11ax
              Channel: 36 (5GHz, 80MHz)
              Security: WPA2 Personal
              Signal / Noise: -50 dBm / -95 dBm
            CafeWifi:
              PHY Mode: 802.11n
              Channel: 6 (2GHz, 20MHz)
              Security: WPA2 Personal
              Signal / Noise: -40 dBm / -90 dBm
            NoChannel:
              Security: WPA3 Personal
".

Definition homeNet : WiFiNetwork :=
  mkWiFiNetwork "HomeNet" (-50) "WPA2 Personal" "36" "HomeNet-36" true.

Definition cafeWifi : WiFiNetwork :=
  mkWiFiNetwork "CafeWifi" (-71) "None" "6" "CafeWifi-6" false.

(** A report whose only entry has the empty string as SSID (the name
    line is a lone colon) and a channel line. *)
Definition hiddenReport : string :=
  "Other Local Wi-Fi Networks:
            :
              Channel: 6 (2GHz, 20MHz)
              Security: WPA2 Personal
".

Definition unrecognizedReport : string :=
  "zsh: command produced something else
Wi-Fi: off
  Status: Inactive".

Definition lowercaseOpen : WiFiNetwork :=
  mkWiFiNetwork "Lobby" (-60) "open" "11" "Lobby-11" false.

Definition emptyWorld : App.World :=
  App.mkWorld ∅ ∅ 1000 [] true EmptyString None [].

(** A world in which a password is saved for HomeNet. *)
Definition savedWorld : App.World :=
  App.mkWorld ∅ (<[ "wifi-password-HomeNet" := "hunter2" ]> ∅) 1000 []
              true EmptyString None [].

(** A world whose cache holds an entry written at time 1000. *)
Definition cachedWorld : App.World :=
  App.mkWorld (<[ "wifi-networks" := "{cached}" ]> ∅) ∅ 1200 []
              false EmptyString None [].

Definition cachedEntry : CachedData :=
  mkCachedData 3 [homeNet; cafeWifi] "HomeNet" 1000.

(** An operating system on which every command succeeds silently. *)
Definition osAccepts (command : string) : Scanner.ExecResult :=
  Scanner.Stdout EmptyString.

(** An operating system that rejects every association attempt. *)
Definition osRejects (command : string) : Scanner.ExecResult :=
  Scanner.Throws "Error: Command failed: authentication failed".

(** An operating system on which every command fails with an error
    that repeats the command. *)
Definition osEchoes (command : string) : Scanner.ExecResult :=
  Scanner.Throws ("Error: Command failed: " +:+ command).

(** An operating system on which every command prints a secret
    surrounded by white space. *)
Definition osPrints (command : string) : Scanner.ExecResult :=
  Scanner.Stdout "  hunter2
".

(** A stand-in for the JSON of the runtime that knows one entry. *)
Definition sampleStringify (d : CachedData) : string := "{cached}".
Definition sampleParse (s : string) : option CachedData :=
  if JS.strictEq s "{cached}" then Some cachedEntry else None.

(** *** Vocabulary of the further properties *)

(** No code unit of [s] is white space. *)
Fixpoint noWhiteSpace (s : string) : bool :=
  match s with
  | EmptyString => true
  | String c r => negb (JS.isWhiteSpace c) && noWhiteSpace r
  end.

(** The channel of an accumulated entry, once set, is one token. *)
Definition tokenChannel (e : PartialNetwork) : Prop :=
  forall c, p_channel e = Some c -> noWhiteSpace c = true.

(** Strongest signal first: every record is at least as strong as the
    one that follows it. *)
Definition strongestFirst (l : list WiFiNetwork) : Prop :=
  Sorted (fun a b => rssi b <= rssi a) l.

(** The readings that [parseInt] returns exactly: the integers of
    absolute value at most 2^53. *)
Definition exactReading (n : WiFiNetwork) : Prop := Z.abs (rssi n) <= 2 ^ 53.

(** What the scanner fills in for, or derives from, a pushed entry. *)
Definition wellFormed (current : string) (n : WiFiNetwork) : Prop :=
  rssi n <> 0 /\ security n <> EmptyString /\ bssid n <> EmptyString /\
  noWhiteSpace (channel n) = true /\
  isConnected n = JS.strictEq (ssid n) current.

(** The events of one scan. *)
Definition scanEvents (execSync : string -> Scanner.ExecResult) : list App.Event :=
  match execSync App.scanCommand with
  | Scanner.Stdout _ => [App.EvExec App.scanCommand]
  | Scanner.Throws _ =>
      [App.EvExec App.scanCommand;
       App.EvConsoleError "System profiler scan failed:"]
  end.

(** The world after a reload that did not find a usable entry:
    [w'] is the world the read of the cache left. *)
Definition rescanned (execSync : string -> Scanner.ExecResult)
    (JSON_stringify : CachedData -> string) (w' : App.World) : App.World :=
  let scan := Scanner.scanNetworksAndGetCurrent (execSync App.scanCommand) in
  App.mkWorld
    (<[App.CACHE_KEY := JSON_stringify
                          (mkCachedData App.CACHE_VERSION
                             (Scanner.availableNetworks scan)
                             (Scanner.currentNetwork scan) (App.clock w'))]>
       (App.cache w'))
    (App.storage w') (App.clock w') (Scanner.availableNetworks scan) false
    (Scanner.currentNetwork scan) (App.selectedNetwork w')
    (App.log w' ++ scanEvents execSync).

(** The toast that announces an attempt. *)
Definition connecting (n : WiFiNetwork) : App.Event :=
  App.EvToast App.Animated ("Connecting to " +:+ ssid n +:+ "...") None.

(** The events of one restoration of the focus. *)
Definition focusEvents (execSync : string -> Scanner.ExecResult) : list App.Event :=
  match execSync Keychain.openRaycast with
  | Scanner.Stdout _ => [App.EvExec Keychain.openRaycast]
  | Scanner.Throws _ =>
      [App.EvExec Keychain.openRaycast; App.EvExec Keychain.osascriptRaycast]
  end.

(** Reading an escaped field back: a backslash gives way to the code
    unit that follows it. *)
Fixpoint unescapeField (s : string) : string :=
  match s with
  | EmptyString => EmptyString
  | String c r =>
      if Ascii.eqb c App.backslash then
        match r with
        | String d r' => String d (unescapeField r')
        | EmptyString => EmptyString
        end
      else String c (unescapeField r)
  end.

(** Reading one escaped field of the QR text: up to the first
    semicolon that is not escaped; the rest follows that semicolon. *)
Fixpoint readField (s : string) : string * string :=
  match s with
  | EmptyString => (EmptyString, EmptyString)
  | String c r =>
      if Ascii.eqb c ";" then (EmptyString, r)
      else if Ascii.eqb c App.backslash then
        match r with
        | String d r' => let (f, rest) := readField r' in (String d f, rest)
        | EmptyString => (EmptyString, EmptyString)
        end
      else let (f, rest) := readField r in (String c f, rest)
  end.

(** Reading a field that is not escaped, up to the first semicolon. *)
Fixpoint readPlain (s : string) : string * string :=
  match s with
  | EmptyString => (EmptyString, EmptyString)
  | String c r =>
      if Ascii.eqb c ";" then (EmptyString, r)
      else let (f, rest) := readPlain r in (String c f, rest)
  end.

(** [s] without the prefix [p], when it starts with it. *)
Fixpoint dropPrefix (p s : string) : option string :=
  match p with
  | EmptyString => Some s
  | String c p' =>
      match s with
      | String d s' => if Ascii.eqb c d then dropPrefix p' s' else None
      | EmptyString => None
      end
  end.

(** A reader of the QR text: the security type, the SSID and the
    password. *)
Definition decodeWifi (text : string) : option (string * string * string) :=
  match dropPrefix "WIFI:T:" text with
  | None => None
  | Some afterTag =>
      let (type, afterType) := readPlain afterTag in
      match dropPrefix "S:" afterType with
      | None => None
      | Some afterS =>
          let (name, afterName) := readField afterS in
          match dropPrefix "P:" afterName with
          | None => None
          | Some afterP =>
              let (password, rest) := readField afterP in
              if JS.strictEq rest "H:false;;" then Some (type, name, password)
              else None
          end
      end
  end.

(** How the shell reads the inside of a double-quoted word: a
    backslash quotes the code unit after it when that is a dollar
    sign, a backtick, a double quote or a backslash, joins the lines
    when it is a newline, and stands for itself otherwise; the word
    ends at the first double quote that is not quoted.  The result is
    the text of the word and what follows its closing quote; [None]
    when the quote is never closed or when a dollar sign or a
    backtick is left unquoted (an expansion, not a literal). *)
Fixpoint readDoubleQuoted (s : string) : option (string * string) :=
  match s with
  | EmptyString => None
  | String c r =>
      if Ascii.eqb c "034" then Some (EmptyString, r)
      else if Ascii.eqb c "$" || Ascii.eqb c "`" then None
      else if Ascii.eqb c App.backslash then
        match r with
        | String d r' =>
            if Ascii.eqb d "$" || Ascii.eqb d "`" || Ascii.eqb d "034"
               || Ascii.eqb d App.backslash
            then match readDoubleQuoted r' with
                 | Some (word, rest) => Some (String d word, rest)
                 | None => None
                 end
            else if Ascii.eqb d "010" then readDoubleQuoted r'
            else match readDoubleQuoted r with
                 | Some (word, rest) => Some (String c word, rest)
                 | None => None
                 end
        | EmptyString => None
        end
      else match readDoubleQuoted r with
           | Some (word, rest) => Some (String c word, rest)
           | None => None
           end
  end.

(** No code unit of [s] is a backslash. *)
Fixpoint noBackslash (s : string) : bool :=
  match s with
  | EmptyString => true
  | String c r => negb (Ascii.eqb c App.backslash) && noBackslash r
  end.

(** The password made of a backslash and a double quote. *)
Definition backslashQuote : string := String App.backslash App.dquote.

(** A report whose only entry has a channel and nothing else. *)
Definition bareReport : string :=
  "Other Local Wi-Fi Networks:
            Guest:
              Channel: 11 (2GHz, 20MHz)
".

Definition guest : WiFiNetwork :=
  mkWiFiNetwork "Guest" (-70) "Unknown" "11" "Guest-11" false.

(** The stand-in JSON for an entry that holds the empty snapshot. *)
Definition emptyStringify (d : CachedData) : string := "{empty}".
Definition emptyParse (s : string) : option CachedData :=
  if JS.strictEq s "{empty}" then Some (mkCachedData 3 [] EmptyString 1000) else None.

End Spec.

(** * Properties *)

(** ** Strings *)

Module JSFacts.
Import JS Spec.

Lemma append_nil (t : string) : EmptyString +:+ t = t.
Proof. reflexivity. Qed.

Lemma append_cons (c : ascii) (s t : string) :
  String c s +:+ t = String c (s +:+ t).
Proof. reflexivity. Qed.

Ltac sapp := rewrite ?append_cons, ?append_nil in *.

Lemma append_empty_r (s : string) : s +:+ EmptyString = s.
Proof. induction s as [|c s IH]; sapp; [reflexivity | now rewrite IH]. Qed.

Lemma append_assoc (a b c : string) : (a +:+ b) +:+ c = a +:+ b +:+ c.
Proof. induction a as [|x a IH]; sapp; [reflexivity | now rewrite IH]. Qed.

Lemma prefix_append (a q : string) : String.prefix a (a +:+ q) = true.
Proof.
  induction a as [|c a IH]; sapp; simpl.
  - now destruct q.
  - destruct (ascii_dec c c) as [_|n]; [exact IH | now elim n].
Qed.

Lemma prefix_split (a s : string) :
  String.prefix a s = true -> exists q, s = a +:+ q.
Proof.
  revert s; induction a as [|c a IH]; intros s H.
  - now exists s.
  - destruct s as [|d s]; simpl in H; [discriminate|].
    destruct (ascii_dec c d) as [->|]; [|discriminate].
    destruct (IH s H) as [q ->]. now exists q.
Qed.

Lemma occursIn_refl (s : string) : occursIn s s.
Proof. exists EmptyString, EmptyString. sapp. now rewrite append_empty_r. Qed.

Lemma occursIn_trans (a b c : string) :
  occursIn a b -> occursIn b c -> occursIn a c.
Proof.
  intros (p & q & ->) (p' & q' & ->).
  exists (p' +:+ p), (q +:+ q'). now rewrite !append_assoc.
Qed.

Lemma occursIn_cons (a s : string) (c : ascii) :
  occursIn a s -> occursIn a (String c s).
Proof. intros (p & q & ->). now exists (String c p), q. Qed.

Lemma includes_nil (sub : string) :
  includes EmptyString sub = String.prefix sub EmptyString.
Proof. now destruct sub. Qed.

Lemma includes_cons (c : ascii) (s sub : string) :
  includes (String c s) sub = String.prefix sub (String c s) || includes s sub.
Proof.
  change (includes (String c s) sub)
    with (if String.prefix sub (String c s) then true else includes s sub).
  now destruct (String.prefix sub (String c s)).
Qed.

Lemma includes_occursIn (s sub : string) :
  includes s sub = true <-> occursIn sub s.
Proof.
  split.
  - induction s as [|c s IH].
    + rewrite includes_nil. intros E.
      destruct (prefix_split _ _ E) as [q Hq].
      exists EmptyString, q. exact Hq.
    + rewrite includes_cons. intros [E|H]%orb_true_iff.
      * destruct (prefix_split _ _ E) as [q Hq].
        exists EmptyString, q. exact Hq.
      * apply occursIn_cons, IH, H.
  - intros (p & q & ->). induction p as [|c p IH]; sapp.
    + destruct (sub +:+ q) eqn:E.
      * rewrite includes_nil, <- E. apply prefix_append.
      * rewrite includes_cons, <- E, prefix_append. reflexivity.
    + rewrite includes_cons, IH. apply orb_true_r.
Qed.

Lemma includes_mono (a s h : string) :
  occursIn a s -> includes a h = true -> includes s h = true.
Proof.
  intros Has H. apply includes_occursIn.
  eapply occursIn_trans; [|exact Has]. now apply includes_occursIn.
Qed.

Lemma trimStart_suffix (s : string) : exists p, s = p +:+ trimStart s.
Proof.
  induction s as [|c s [p IH]]; simpl.
  - now exists EmptyString.
  - destruct (isWhiteSpace c).
    + exists (String c p). sapp. now rewrite <- IH.
    + now exists EmptyString.
Qed.

Lemma trimEnd_prefix (s : string) : exists q, s = trimEnd s +:+ q.
Proof.
  induction s as [|c s [q IH]]; simpl.
  - now exists EmptyString.
  - destruct (trimEnd s) as [|d r] eqn:E.
    + destruct (isWhiteSpace c).
      * now exists (String c s).
      * exists s. reflexivity.
    + exists q. sapp. now rewrite <- IH.
Qed.

Lemma trim_occursIn (s : string) : occursIn (trim s) s.
Proof.
  unfold trim. destruct (trimStart_suffix s) as [p Hp].
  destruct (trimEnd_prefix (trimStart s)) as [q Hq].
  exists p, q. now rewrite <- Hq.
Qed.

(** The first piece of a split is a prefix of the string, and every
    piece occurs in it. *)
Lemma splitChar_pieces (sep : ascii) (s : string) :
  (exists p ps q, splitChar sep s = p :: ps /\ s = p +:+ q) /\
  Forall (fun l => occursIn l s) (splitChar sep s).
Proof.
  induction s as [|c s [(p & ps & q & Hs & Hq) IHall]]; simpl.
  - split.
    + now exists EmptyString, [], EmptyString.
    + constructor; [apply occursIn_refl | constructor].
  - destruct (Ascii.eqb c sep).
    + split.
      * now exists EmptyString, (splitChar sep s), (String c s).
      * constructor.
        -- now exists EmptyString, (String c s).
        -- eapply Forall_impl; [exact IHall|].
           intros l Hl. now apply occursIn_cons.
    + rewrite Hs in *. simpl. split.
      * exists (String c p), ps, q. split; [reflexivity|]. sapp. now rewrite <- Hq.
      * inversion IHall as [|? ? _ Hrest]; subst.
        constructor.
        -- exists EmptyString, q. reflexivity.
        -- eapply Forall_impl; [exact Hrest|].
           intros l Hl. now apply occursIn_cons.
Qed.

Lemma truthy_nonempty (s : string) : truthy s = true <-> s <> EmptyString.
Proof. destruct s; simpl; split; congruence. Qed.

End JSFacts.

(** ** The scanner *)

Module ScannerFacts.
Import JS Spec JSFacts Scanner.

(** *** Sorting and filtering keep the records they are given *)

Lemma insertByRssi_perm (x : WiFiNetwork) (l : list WiFiNetwork) :
  Permutation (insertByRssi x l) (x :: l).
Proof.
  induction l as [|y r IH]; simpl; [reflexivity|].
  destruct (rssi y - rssi x <=? 0); [reflexivity|].
  rewrite IH. apply perm_swap.
Qed.

Lemma sortByRssi_perm (l : list WiFiNetwork) : Permutation (sortByRssi l) l.
Proof.
  induction l as [|x r IH]; simpl; [reflexivity|].
  rewrite insertByRssi_perm. now constructor.
Qed.

Lemma filterIndexed_nth {A} (p : A -> Z -> bool) (l : list A) :
  forall i x, In x (filterIndexed p i l) <->
              exists j, nth_error l j = Some x /\ p x (i + Z.of_nat j) = true.
Proof.
  induction l as [|y r IH]; intros i x; simpl.
  - split; [tauto|]. intros (j & Hj & _). now destruct j.
  - split.
    + intros H.
      assert (Hcase : (y = x /\ p y i = true) \/ In x (filterIndexed p (i + 1) r)).
      { destruct (p y i) eqn:E; [destruct H as [H|H]|]; auto. }
      destruct Hcase as [[-> Hp]|H'].
      * exists 0%nat. split; [reflexivity|]. now rewrite Z.add_0_r.
      * apply IH in H' as (j & Hj & Hp). exists (S j). split; [exact Hj|].
        now replace (i + Z.of_nat (S j)) with (i + 1 + Z.of_nat j) by lia.
    + intros ([|j] & Hj & Hp); simpl in Hj.
      * injection Hj as ->. rewrite Z.add_0_r in Hp. rewrite Hp. now left.
      * assert (In x (filterIndexed p (i + 1) r)) as H.
        { apply IH. exists j. split; [exact Hj|].
          now replace (i + 1 + Z.of_nat j) with (i + Z.of_nat (S j)) by lia. }
        destruct (p y i); [now right | exact H].
Qed.

Lemma filterIndexed_In {A} (p : A -> Z -> bool) (l : list A) (i : Z) (x : A) :
  In x (filterIndexed p i l) -> In x l.
Proof.
  intros (j & Hj & _)%filterIndexed_nth. eapply nth_error_In, Hj.
Qed.

(** *** Only complete entries are pushed *)

Lemma pushIfComplete_cases (current : string) (e : PartialNetwork)
    (acc : list WiFiNetwork) :
  pushIfComplete current e acc = acc \/
  exists n, pushIfComplete current e acc = acc ++ [n] /\
            p_ssid e = Some (ssid n) /\ p_channel e = Some (channel n) /\
            complete n.
Proof.
  unfold pushIfComplete.
  destruct (p_ssid e) as [[|a s]|]; auto.
  destruct (p_channel e) as [[|b c]|]; auto.
  right. eexists. split; [reflexivity|]. repeat split; simpl; congruence.
Qed.

Lemma pushIfComplete_Forall (P : WiFiNetwork -> Prop) (current : string)
    (e : PartialNetwork) (acc : list WiFiNetwork) :
  (forall n, p_ssid e = Some (ssid n) -> p_channel e = Some (channel n) ->
             complete n -> In n (pushIfComplete current e acc) -> P n) ->
  Forall P acc -> Forall P (pushIfComplete current e acc).
Proof.
  intros HP Hacc.
  destruct (pushIfComplete_cases current e acc) as [E|(n & E & Hs & Hc & Hn)].
  - now rewrite E.
  - specialize (HP n Hs Hc Hn). rewrite E in *.
    apply Forall_app. split; [exact Hacc|].
    constructor; [|constructor]. apply HP, in_or_app. right. now left.
Qed.

Lemma classifyLine_collected (P : WiFiNetwork -> Prop) (current line trimmed : string)
    (st : LoopState) :
  (forall n, complete n -> P n) ->
  Forall P (collected st) ->
  Forall P (collected (classifyLine current line trimmed st)).
Proof.
  intros HP Hst. unfold classifyLine.
  destruct (negb (hasPropertyFormat trimmed) && (0 <? String.length trimmed)%nat).
  - destruct (searchNonSpace line =? _); simpl; [|exact Hst].
    apply pushIfComplete_Forall; auto.
  - destruct (hasPropertyFormat trimmed && _); simpl; exact Hst.
Qed.

Lemma scanLines_collected (P : WiFiNetwork -> Prop) (current : string)
    (lines : list string) :
  (forall n, complete n -> P n) ->
  forall st, Forall P (collected st) ->
             Forall P (collected (scanLines current lines st)).
Proof.
  intros HP. induction lines as [|line rest IH]; intros st Hst; simpl; [exact Hst|].
  destruct (includes (trim line) _); [now apply IH|].
  destruct (negb (inNetworkSection st)); [now apply IH|].
  destruct (isMajorSection line); [exact Hst|].
  destruct (strictEq (trim line) EmptyString); [now apply IH|].
  apply IH. now apply classifyLine_collected.
Qed.

Lemma parseNetworks_complete (current : string) (lines : list string) :
  Forall complete (parseNetworks current lines).
Proof.
  unfold parseNetworks. apply pushIfComplete_Forall; [auto|].
  apply scanLines_collected; [auto | constructor].
Qed.

Lemma availableNetworks_from_parse (output : string) (n : WiFiNetwork) :
  In n (availableNetworks (parseReport output)) ->
  In n (parseNetworks (findCurrentNetwork false (splitChar "010" output))
                      (splitChar "010" output)).
Proof.
  unfold parseReport. simpl. intros H.
  apply (Permutation_in _ (sortByRssi_perm _)) in H.
  eapply filterIndexed_In, H.
Qed.

(** *** Duplicates *)

Lemma sameNetwork_key (network n : WiFiNetwork) :
  sameNetwork network n = true <-> networkKey n = networkKey network.
Proof.
  unfold sameNetwork, networkKey, strictEq.
  rewrite andb_true_iff, !String.eqb_eq. split.
  - now intros [-> ->].
  - intros H. now injection H.
Qed.

Lemma sameNetwork_refl (n : WiFiNetwork) : sameNetwork n n = true.
Proof. now apply sameNetwork_key. Qed.

Lemma sameNetwork_ext (a b : WiFiNetwork) :
  networkKey a = networkKey b -> forall n, sameNetwork a n = sameNetwork b n.
Proof.
  unfold sameNetwork, networkKey. intros H n. injection H as -> ->. reflexivity.
Qed.

Lemma findIndex_ext {A} (p q : A -> bool) (l : list A) :
  (forall x, p x = q x) -> findIndex p l = findIndex q l.
Proof.
  intros H. induction l as [|x r IH]; simpl; [reflexivity|].
  now rewrite H, IH.
Qed.

Lemma findIndex_lower {A} (p : A -> bool) (l : list A) : -1 <= findIndex p l.
Proof.
  induction l as [|x r IH]; simpl; [lia|].
  destruct (p x); [lia|]. destruct (findIndex p r <? 0) eqn:E; lia.
Qed.

(** The element at the index that [findIndex] returns is the one that
    [find] returns. *)
Lemma findIndex_find {A} (p : A -> bool) (l : list A) :
  forall j x, nth_error l j = Some x -> findIndex p l = Z.of_nat j ->
              find p l = Some x.
Proof.
  induction l as [|y r IH]; intros j x Hj Hi; [now destruct j|].
  simpl in *. destruct (p y) eqn:E.
  - destruct j; [simpl in Hj; congruence | lia].
  - destruct (findIndex p r <? 0) eqn:E'; [lia|].
    destruct j as [|j]; [lia|]. apply (IH j); [exact Hj | lia].
Qed.

Lemma find_findIndex {A} (p : A -> bool) (l : list A) (x : A) :
  In x l -> p x = true ->
  exists j y, nth_error l j = Some y /\ findIndex p l = Z.of_nat j /\ p y = true.
Proof.
  induction l as [|z r IH]; intros Hin Hp; [destruct Hin|].
  simpl. destruct (p z) eqn:E.
  - exists 0%nat, z. auto.
  - destruct Hin as [->|Hin]; [congruence|].
    destruct (IH Hin Hp) as (j & y & Hj & Hi & Hy).
    exists (S j), y. rewrite Hi.
    destruct (Z.of_nat j <? 0) eqn:E'; [lia|].
    repeat split; [exact Hj | lia | exact Hy].
Qed.

(** A filter that keeps the element at position [i] only when [g]
    maps it to [i] keeps at most one element for each value of [g]. *)
Lemma filterIndexed_NoDup {A} (g : A -> Z) (l : list A) :
  forall i, NoDup (g <$> filterIndexed (fun x index => index =? g x) i l) /\
            Forall (fun x => i <= g x) (filterIndexed (fun x index => index =? g x) i l).
Proof.
  induction l as [|x r IH]; intros i; simpl.
  - split; constructor.
  - destruct (IH (i + 1)) as [Hnd Hge].
    assert (Hge' : Forall (fun y => i <= g y)
                     (filterIndexed (fun x index => index =? g x) (i + 1) r)).
    { eapply Forall_impl; [exact Hge|]. simpl. intros; lia. }
    destruct (i =? g x) eqn:E; [|now split].
    apply Z.eqb_eq in E. split.
    + rewrite fmap_cons. apply NoDup_cons. split; [|exact Hnd].
      intros (y & Hy & Hin)%list_elem_of_fmap.
      rewrite Forall_forall in Hge. specialize (Hge y Hin). simpl in Hge. lia.
    + constructor; [lia | exact Hge'].
Qed.

Lemma uniqueNetworks_NoDup (self : list WiFiNetwork) :
  NoDup (networkKey <$> uniqueNetworks self).
Proof.
  pose (h := fun k : string * string =>
               findIndex (fun n => strictEq (ssid n) k.1 && strictEq (channel n) k.2) self).
  apply (NoDup_fmap_1 h). rewrite <- list_fmap_compose.
  unfold uniqueNetworks.
  destruct (filterIndexed_NoDup (fun n => findIndex (sameNetwork n) self) self 0)
    as [H _].
  exact H.
Qed.

Lemma uniqueNetworks_first (self : list WiFiNetwork) (n : WiFiNetwork) :
  In n (uniqueNetworks self) -> find (sameNetwork n) self = Some n.
Proof.
  intros (j & Hj & Hf)%filterIndexed_nth.
  apply Z.eqb_eq in Hf. eapply findIndex_find; [exact Hj|]. lia.
Qed.

Lemma uniqueNetworks_covers (self : list WiFiNetwork) (n : WiFiNetwork) :
  In n self ->
  exists m, In m (uniqueNetworks self) /\ networkKey m = networkKey n.
Proof.
  intros Hin.
  destruct (find_findIndex (sameNetwork n) self n Hin (sameNetwork_refl n))
    as (j & m & Hj & Hi & Hm).
  apply sameNetwork_key in Hm.
  exists m. split; [|exact Hm].
  apply filterIndexed_nth. exists j. split; [exact Hj|].
  apply Z.eqb_eq. rewrite (findIndex_ext _ _ self (sameNetwork_ext m n Hm)). lia.
Qed.

End ScannerFacts.

Module ScannerTheorems.
Import JS Spec JSFacts Scanner ScannerFacts.

(** The sample report: the current network is read from its section,
    the second sighting of CafeWifi on channel 6 is dropped, the entry
    without a channel is dropped, and the stronger signal comes first. *)
Example parse_sampleReport :
  scanNetworksAndGetCurrent (Stdout sampleReport)
  = {| currentNetwork := "HomeNet"; availableNetworks := [homeNet; cafeWifi] |}.
Proof. reflexivity. Qed.

(** *** Reports without the section headers *)

Lemma lines_without (output h : string) :
  includes output h = false ->
  Forall (fun line => includes line h = false /\ includes (trim line) h = false)
         (splitChar "010" output).
Proof.
  intros Hno. destruct (splitChar_pieces "010" output) as [_ Hall].
  eapply Forall_impl; [exact Hall|]. simpl. intros line Hocc.
  assert (Hline : includes line h = false).
  { destruct (includes line h) eqn:E; [|reflexivity].
    now rewrite (includes_mono line output h Hocc E) in Hno. }
  split; [exact Hline|].
  destruct (includes (trim line) h) eqn:E; [|reflexivity].
  now rewrite (includes_mono _ line h (trim_occursIn line) E) in Hline.
Qed.

Lemma findCurrentNetwork_without (lines : list string) :
  Forall (fun line => includes line currentHeader = false) lines ->
  findCurrentNetwork false lines = EmptyString.
Proof.
  induction 1 as [|line rest Hline _ IH]; simpl; [reflexivity|].
  unfold currentHeader in Hline. now rewrite Hline.
Qed.

Lemma scanLines_without (current : string) (lines : list string) :
  Forall (fun line => includes (trim line) networksHeader = false) lines ->
  forall st, inNetworkSection st = false -> scanLines current lines st = st.
Proof.
  induction 1 as [|line rest Hline _ IH]; intros st Hst; simpl; [reflexivity|].
  unfold networksHeader in Hline. rewrite Hline, Hst. simpl. now apply IH.
Qed.

Lemma no_current_header (output : string) :
  includes output currentHeader = false ->
  currentNetwork (parseReport output) = EmptyString.
Proof.
  intros H. unfold parseReport. simpl. apply findCurrentNetwork_without.
  eapply Forall_impl; [exact (lines_without _ _ H)|]. simpl. tauto.
Qed.

Lemma no_networks_header (output : string) :
  includes output networksHeader = false ->
  availableNetworks (parseReport output) = [].
Proof.
  intros H. unfold parseReport, parseNetworks. simpl.
  rewrite scanLines_without; [reflexivity | | reflexivity].
  eapply Forall_impl; [exact (lines_without _ _ H)|]. simpl. tauto.
Qed.

(** C4.  The scan-and-parse operation is total and falls back to the
    empty snapshot: whatever [execSync] did, [scanNetworksAndGetCurrent]
    returns a snapshot (no step of the parsing can throw, and the
    failure of the command is caught); when the command throws (non-zero
    exit, timeout) the snapshot is empty; and when the report contains
    neither the header of the current network section nor the header
    of the section of the other networks, the snapshot is empty too:
    [currentNetwork] is the empty string and the record list is empty. *)
Theorem scan_total_empty_fallback :
  (forall r : ExecResult, exists s, scanNetworksAndGetCurrent r = s) /\
  (forall error, scanNetworksAndGetCurrent (Throws error) = emptySnapshot) /\
  (forall output,
      includes output currentHeader = false ->
      includes output networksHeader = false ->
      scanNetworksAndGetCurrent (Stdout output) = emptySnapshot).
Proof.
  split; [|split].
  - intros r. now exists (scanNetworksAndGetCurrent r).
  - reflexivity.
  - intros output H1 H2. simpl.
    pose proof (no_current_header output H1) as Hc.
    pose proof (no_networks_header output H2) as Hn.
    destruct (parseReport output) as [c ns]. simpl in *. now subst.
Qed.

Lemma scan_total_empty_fallback_witness :
  scanNetworksAndGetCurrent (Stdout unrecognizedReport) = emptySnapshot.
Proof.
  apply (proj2 (proj2 scan_total_empty_fallback)); reflexivity.
Defined.

Lemma records_complete (r : ExecResult) (n : WiFiNetwork) :
  In n (availableNetworks (scanNetworksAndGetCurrent r)) -> complete n.
Proof.
  intros Hin. destruct r as [output|error]; [|destruct Hin].
  apply availableNetworks_from_parse in Hin.
  pose proof (parseNetworks_complete
                (findCurrentNetwork false (splitChar "010" output))
                (splitChar "010" output)) as Hall.
  rewrite Forall_forall in Hall. apply Hall. now apply list_elem_of_In.
Qed.

(** C5.  Every record of the parsed snapshot has a non-empty [ssid]
    and a non-empty [channel], and an accumulated entry whose [ssid]
    or [channel] is missing or empty is never pushed. *)
Theorem emitted_records_complete (r : ExecResult) (n : WiFiNetwork) :
  In n (availableNetworks (scanNetworksAndGetCurrent r)) ->
  (ssid n <> EmptyString /\ channel n <> EmptyString) /\
  (forall current e acc,
      orNull (p_ssid e) = None \/ orNull (p_channel e) = None ->
      pushIfComplete current e acc = acc).
Proof.
  intros Hin. split; [exact (records_complete r n Hin)|].
  intros current e acc H. unfold pushIfComplete.
  destruct (p_ssid e) as [[|a s]|]; try reflexivity.
  destruct (p_channel e) as [[|b c]|]; try reflexivity.
  destruct H as [H|H]; discriminate H.
Qed.

Lemma emitted_records_complete_witness :
  (ssid cafeWifi <> EmptyString /\ channel cafeWifi <> EmptyString) /\
  pushIfComplete "HomeNet"
    (mkPartial (Some "NoChannel") None (Some "WPA3 Personal") None None) [homeNet]
  = [homeNet].
Proof.
  assert (Hin : In cafeWifi
                  (availableNetworks (scanNetworksAndGetCurrent (Stdout sampleReport)))).
  { vm_compute. right. left. reflexivity. }
  destruct (emitted_records_complete (Stdout sampleReport) cafeWifi Hin) as [H1 H2].
  split; [exact H1|]. apply H2. right. reflexivity.
Defined.

(** C6, as the specification states it, fails: the report whose only
    entry has the empty SSID and a populated channel parses to the
    empty list, and no report at all yields a record with an empty
    SSID. *)
Lemma hidden_network_filtered :
  availableNetworks (scanNetworksAndGetCurrent (Stdout hiddenReport)) = [] /\
  ~ (exists output n,
        In n (availableNetworks (scanNetworksAndGetCurrent (Stdout output))) /\
        ssid n = EmptyString /\ channel n <> EmptyString).
Proof.
  split; [reflexivity|].
  intros (output & n & Hin & Hs & _).
  now destruct (records_complete _ _ Hin) as [H _].
Qed.

(** C6 (as amended).  An entry whose SSID is the empty string is never
    kept, whatever its channel: the guard of the push needs a truthy
    [ssid], so no record of a parsed snapshot has an empty [ssid]. *)
Theorem empty_ssid_never_kept (current : string) (e : PartialNetwork)
    (acc : list WiFiNetwork) :
  p_ssid e = Some EmptyString ->
  pushIfComplete current e acc = acc /\
  (forall r n,
      In n (availableNetworks (scanNetworksAndGetCurrent r)) ->
      ssid n <> EmptyString).
Proof.
  intros H. split.
  - unfold pushIfComplete. now rewrite H.
  - intros r n Hin. now destruct (records_complete r n Hin).
Qed.

Lemma empty_ssid_never_kept_witness :
  pushIfComplete EmptyString
    (mkPartial (Some EmptyString) None None (Some "6") None) [cafeWifi]
  = [cafeWifi].
Proof.
  apply (empty_ssid_never_kept EmptyString
           (mkPartial (Some EmptyString) None None (Some "6") None) [cafeWifi]).
  reflexivity.
Defined.

(** C7.  No two records of the parsed snapshot share the same
    (ssid, channel) pair; every record is the first of the entries the
    loop produced with its pair, attributes included; and every pair
    the loop produced is represented. *)
Theorem records_unique_first_wins (output : string) :
  let lines := splitChar "010" output in
  let entries := parseNetworks (findCurrentNetwork false lines) lines in
  let records := availableNetworks (scanNetworksAndGetCurrent (Stdout output)) in
  NoDup (networkKey <$> records) /\
  (forall n, In n records -> find (sameNetwork n) entries = Some n) /\
  (forall m, In m entries ->
             exists n, In n records /\ networkKey n = networkKey m).
Proof.
  intros lines entries records.
  assert (Hperm : Permutation records (uniqueNetworks entries))
    by apply sortByRssi_perm.
  split; [|split].
  - rewrite Hperm. apply uniqueNetworks_NoDup.
  - intros n Hin. apply uniqueNetworks_first.
    eapply Permutation_in; [exact Hperm | exact Hin].
  - intros m Hm. destruct (uniqueNetworks_covers entries m Hm) as (n & Hn & Hk).
    exists n. split; [|exact Hk].
    eapply Permutation_in; [symmetry; exact Hperm | exact Hn].
Qed.

Lemma records_unique_first_wins_witness :
  find (sameNetwork cafeWifi)
       (parseNetworks
          (findCurrentNetwork false (splitChar "010" sampleReport))
          (splitChar "010" sampleReport))
  = Some cafeWifi.
Proof.
  apply (proj1 (proj2 (records_unique_first_wins sampleReport))).
  vm_compute. right. left. reflexivity.
Defined.

End ScannerTheorems.

(** ** Credentials and the connector *)

Module ConnectorFacts.
Import JS Spec JSFacts App.

Lemma strictEq_eq (s t : string) : strictEq s t = true <-> s = t.
Proof. apply String.eqb_eq. Qed.

Lemma isOpenNetwork_labels (n : WiFiNetwork) :
  isOpenNetwork n = true <->
  security n = "Open" \/ security n = "OPEN" \/ security n = "None".
Proof.
  unfold isOpenNetwork. rewrite !orb_true_iff, !strictEq_eq. tauto.
Qed.

Lemma orNull_not_empty (o : option string) : orNull o <> Some EmptyString.
Proof. destruct o as [[|c s]|]; simpl; congruence. Qed.

Lemma orNull_None (o : option string) :
  orNull o = None <-> o = None \/ o = Some EmptyString.
Proof.
  destruct o as [[|c s]|]; simpl; split; intros H; auto; try discriminate.
  destruct H; discriminate.
Qed.

Lemma orNull_Some (o : option string) (s : string) :
  orNull o = Some s <-> o = Some s /\ s <> EmptyString.
Proof.
  destruct o as [[|c r]|]; simpl; split; intros H; try discriminate.
  - destruct H as [H Hne]. injection H as <-. now elim Hne.
  - injection H as <-. split; [reflexivity | discriminate].
  - destruct H as [H _]. exact H.
  - destruct H; discriminate.
Qed.

(** *** Escaping *)

Lemma escapePassword_cons (c : ascii) (s : string) :
  escapePassword (String c s) =
  if isShellMeta c then String backslash (String c (escapePassword s))
  else String c (escapePassword s).
Proof.
  unfold escapePassword, isShellMeta.
  destruct (Ascii.eqb c "034") eqn:E1.
  - apply Ascii.eqb_eq in E1. subst c. reflexivity.
  - destruct (Ascii.eqb c "$") eqn:E2.
    + apply Ascii.eqb_eq in E2. subst c. reflexivity.
    + destruct (Ascii.eqb c "`") eqn:E3.
      * apply Ascii.eqb_eq in E3. subst c. reflexivity.
      * simpl. rewrite E1. simpl. rewrite E2. simpl. rewrite E3. reflexivity.
Qed.

Lemma escapePassword_escapeEach (s : string) : escapePassword s = escapeEach s.
Proof.
  induction s as [|c s IH]; [reflexivity|].
  rewrite escapePassword_cons. simpl. now rewrite IH.
Qed.

(** In the escaped text a metacharacter always has a backslash right
    in front of it. *)
Lemma escapeEach_prefixed (s : string) :
  forall p c q, escapeEach s = p +:+ String c q -> isShellMeta c = true ->
                exists p', p = p' +:+ String backslash EmptyString.
Proof.
  induction s as [|d s IH]; intros p c q H Hc; simpl in H.
  - destruct p; sapp; discriminate.
  - destruct (isShellMeta d) eqn:Hd.
    + destruct p as [|x [|y p]]; sapp.
      * injection H as <- _. discriminate Hc.
      * injection H as <- _ _. now exists EmptyString.
      * injection H as <- <- H. destruct (IH _ _ _ H Hc) as [p' ->].
        exists (String backslash (String d p')). reflexivity.
    + destruct p as [|x p]; sapp.
      * injection H as <- _. congruence.
      * injection H as <- H. destruct (IH _ _ _ H Hc) as [p' ->].
        exists (String d p'). reflexivity.
Qed.

End ConnectorFacts.

Module ConnectorTheorems.
Import JS Spec JSFacts App ConnectorFacts.

Section WithPlatform.

Variable execSync : string -> Scanner.ExecResult.
Variable JSON_stringify_string : string -> string.

Local Abbreviation connect := (connectToNetwork execSync).
Local Abbreviation tryConnect := (tryConnectWithSavedPassword execSync).
Local Abbreviation fetchPassword :=
  (fetchPasswordFromKeychain execSync JSON_stringify_string).

Lemma runConnect_eq (n : WiFiNetwork) (command : string) (w : World) :
  runConnect execSync n command w =
  (outcome n (execSync command), logged [EvExec command] w).
Proof.
  unfold runConnect, runExec, bind, emit, ret, outcome, logged.
  now destruct (execSync command).
Qed.

Lemma connect_open (n : WiFiNetwork) (iface : string) (pw : option string)
    (w : World) :
  isOpenNetwork n = true ->
  connect n iface pw w =
  (outcome n (execSync (openCommand iface (ssid n))),
   logged [EvExec (openCommand iface (ssid n))] w).
Proof.
  intros H. unfold connectToNetwork. rewrite H. apply runConnect_eq.
Qed.

Lemma connect_secured (n : WiFiNetwork) (iface pw : string) (w : World) :
  isOpenNetwork n = false -> pw <> EmptyString ->
  connect n iface (Some pw) w =
  (outcome n (execSync (securedCommand iface (ssid n) (escapePassword pw))),
   logged [EvExec (securedCommand iface (ssid n) (escapePassword pw))] w).
Proof.
  intros H Hpw. unfold connectToNetwork. rewrite H.
  destruct pw as [|c s]; [now elim Hpw|]. apply runConnect_eq.
Qed.

Lemma classifyError_fails (e : string) : success (classifyError e) = false.
Proof.
  unfold classifyError.
  destruct (includes e "password" || includes e "authentication"); [reflexivity|].
  now destruct (includes e "network" || includes e "not found").
Qed.

Lemma getSavedPassword_eq (name : string) (w : World) :
  getSavedPassword name w =
  (orNull (storage w !! (STORAGE_KEY_PREFIX +:+ name)),
   logged [EvStorageGet (STORAGE_KEY_PREFIX +:+ name)] w).
Proof. reflexivity. Qed.

Lemma logged_logged (a b : list Event) (w : World) :
  logged b (logged a w) = logged (a ++ b) w.
Proof. unfold logged. simpl. now rewrite app_assoc. Qed.

(** What [tryConnectWithSavedPassword] does on a secured network. *)
Lemma tryConnect_secured (n : WiFiNetwork) (iface : string) (w : World) :
  isOpenNetwork n = false ->
  let key := STORAGE_KEY_PREFIX +:+ ssid n in
  tryConnect n iface w =
  match orNull (storage w !! key) with
  | Some pw =>
      let command := securedCommand iface (ssid n) (escapePassword pw) in
      (match execSync command with
       | Scanner.Stdout _ =>
           mkResult true ("Connected to " +:+ ssid n) None (Some true)
       | Scanner.Throws _ =>
           mkResult false "Saved password didn't work" (Some true) None
       end,
       logged [EvStorageGet key; EvExec command] w)
  | None =>
      (mkResult false "Password required for this network" (Some true) None,
       logged [EvStorageGet key] w)
  end.
Proof.
  intros H key. unfold tryConnectWithSavedPassword. rewrite H.
  unfold bind. rewrite getSavedPassword_eq. fold key.
  destruct (orNull (storage w !! key)) as [pw|] eqn:E; [|reflexivity].
  apply orNull_Some in E as [_ Hne].
  destruct pw as [|c s]; [now elim Hne|].
  rewrite (connect_secured n iface (String c s) _ H Hne), logged_logged.
  unfold outcome. simpl.
  destruct (execSync _); [reflexivity|].
  now rewrite classifyError_fails.
Qed.

Lemma outcome_no_prompt (n : WiFiNetwork) (r : Scanner.ExecResult) :
  requiresPassword (outcome n r) = None.
Proof.
  destruct r as [out|e]; [reflexivity|]. simpl. unfold classifyError.
  destruct (includes e "password" || includes e "authentication"); [reflexivity|].
  now destruct (includes e "network" || includes e "not found").
Qed.

Lemma fetchPassword_eq (name : string) (w : World) :
  let command :=
    "security find-generic-password -wa " +:+ JSON_stringify_string name in
  fetchPassword name w =
  (match execSync command with
   | Scanner.Stdout out => orNull (Some (trim out))
   | Scanner.Throws _ => None
   end,
   logged [EvExec command] w).
Proof.
  intros command. unfold fetchPasswordFromKeychain, runExec, bind, emit, ret.
  fold command. now destruct (execSync command).
Qed.

(** C1 (as amended).  The connect operation treats a network as open
    exactly when its security label is one of the three literals
    Open, OPEN and None.  For an open network it runs the OS connect
    primitive once, with the command that carries no password, does
    not consult the saved credentials and never asks for a password;
    for every other label it consults the saved credentials first,
    and the only command it may then run carries a password. *)
Theorem open_network_policy (n : WiFiNetwork) (iface : string) (w : World) :
  (isOpenNetwork n = true <->
   security n = "Open" \/ security n = "OPEN" \/ security n = "None") /\
  (isOpenNetwork n = true ->
   tryConnect n iface w =
     (outcome n (execSync (openCommand iface (ssid n))),
      logged [EvExec (openCommand iface (ssid n))] w) /\
   requiresPassword (fst (tryConnect n iface w)) = None) /\
  (isOpenNetwork n = false ->
   exists rest,
     snd (tryConnect n iface w)
     = logged (EvStorageGet (STORAGE_KEY_PREFIX +:+ ssid n) :: rest) w /\
     (rest = [] \/
      exists pw, pw <> EmptyString /\
        rest = [EvExec (securedCommand iface (ssid n) (escapePassword pw))])).
Proof.
  split; [apply isOpenNetwork_labels|]. split.
  - intros H.
    assert (E : tryConnect n iface w = connect n iface None w).
    { unfold tryConnectWithSavedPassword. now rewrite H. }
    rewrite E, (connect_open n iface None w H). split; [reflexivity|].
    apply outcome_no_prompt.
  - intros H. rewrite (tryConnect_secured n iface w H).
    destruct (orNull _) as [pw|] eqn:E; simpl.
    + apply orNull_Some in E as [_ Hne]. eexists. split; [reflexivity|].
      right. now exists pw.
    + exists []. split; [reflexivity | now left].
Qed.

(** C2.  A secured network connected without an explicit password:
    with a saved password that the OS connect primitive accepts the
    result is a success that records the use of the saved password;
    with a saved password that the primitive rejects the result asks
    for a password with the message that the saved one did not work,
    after that single attempt; without a saved password the result
    asks for a password and the primitive is not run at all. *)
Theorem saved_password_fallback (n : WiFiNetwork) (iface : string) (w : World) :
  isOpenNetwork n = false ->
  let key := STORAGE_KEY_PREFIX +:+ ssid n in
  (forall pw, fst (getSavedPassword (ssid n) w) = Some pw ->
     let command := securedCommand iface (ssid n) (escapePassword pw) in
     snd (tryConnect n iface w) = logged [EvStorageGet key; EvExec command] w /\
     (forall out, execSync command = Scanner.Stdout out ->
        fst (tryConnect n iface w)
        = mkResult true ("Connected to " +:+ ssid n) None (Some true)) /\
     (forall err, execSync command = Scanner.Throws err ->
        fst (tryConnect n iface w)
        = mkResult false "Saved password didn't work" (Some true) None)) /\
  (fst (getSavedPassword (ssid n) w) = None ->
     tryConnect n iface w
     = (mkResult false "Password required for this network" (Some true) None,
        logged [EvStorageGet key] w)).
Proof.
  intros H key. rewrite getSavedPassword_eq. simpl. fold key.
  rewrite (tryConnect_secured n iface w H). fold key. split.
  - intros pw ->. simpl. split; [reflexivity|].
    split; [intros out -> | intros err ->]; reflexivity.
  - now intros ->.
Qed.

(** What the escaping of an explicit password does achieve: every
    double quote, dollar sign and backtick of the password gets a
    backslash in front of it in the escaped text; and when a
    password is supplied (a non-empty string) the OS connect
    primitive is run once, with the command built from exactly that
    escaped text, and the saved credentials are not consulted. *)
Theorem explicit_password_escaped (n : WiFiNetwork) (iface pw : string)
    (w : World) :
  let command := securedCommand iface (ssid n) (escapePassword pw) in
  escapePassword pw = escapeEach pw /\
  (forall p c q, escapePassword pw = p +:+ String c q -> isShellMeta c = true ->
                 exists p', p = p' +:+ String backslash EmptyString) /\
  command = "/usr/sbin/networksetup -setairportnetwork " +:+ iface +:+ " "
            +:+ dquote +:+ ssid n +:+ dquote +:+ " "
            +:+ dquote +:+ escapePassword pw +:+ dquote /\
  (isOpenNetwork n = false -> pw <> EmptyString ->
   connect n iface (Some pw) w
   = (outcome n (execSync command), logged [EvExec command] w)).
Proof.
  intros command. split; [apply escapePassword_escapeEach|]. split.
  - intros p c q. rewrite escapePassword_escapeEach. apply escapeEach_prefixed.
  - split; [reflexivity|]. intros H Hpw. apply (connect_secured n iface pw w H Hpw).
Qed.

(** C10.  Credential lookups return a value for every input and never
    the empty string: [fetchPasswordFromKeychain] returns null when
    the query of the store fails or yields a secret that is empty
    once trimmed, [getSavedPassword] returns null when the stored
    value is absent or empty, and so a secured network with an empty
    saved password gets the same password-required result, without
    any run of the OS connect primitive, as one with none. *)
Theorem credential_lookups_never_empty (name : string) (w : World) :
  let command :=
    "security find-generic-password -wa " +:+ JSON_stringify_string name in
  let key := STORAGE_KEY_PREFIX +:+ name in
  fst (fetchPassword name w) <> Some EmptyString /\
  (forall err, execSync command = Scanner.Throws err ->
               fst (fetchPassword name w) = None) /\
  (forall out, execSync command = Scanner.Stdout out -> trim out = EmptyString ->
               fst (fetchPassword name w) = None) /\
  fst (getSavedPassword name w) <> Some EmptyString /\
  (storage w !! key = None \/ storage w !! key = Some EmptyString ->
   fst (getSavedPassword name w) = None /\
   forall n iface, ssid n = name -> isOpenNetwork n = false ->
     tryConnect n iface w
     = (mkResult false "Password required for this network" (Some true) None,
        logged [EvStorageGet key] w)).
Proof.
  intros command key. rewrite fetchPassword_eq, getSavedPassword_eq.
  fold command key. cbn [fst snd].
  split; [|split; [|split; [|split]]].
  - destruct (execSync command); [apply orNull_not_empty | discriminate].
  - now intros err ->.
  - now intros out -> ->.
  - apply orNull_not_empty.
  - intros H%orNull_None. split; [exact H|].
    intros n iface Hname Hn. rewrite (tryConnect_secured n iface w Hn).
    rewrite Hname. fold key. now rewrite H.
Qed.

End WithPlatform.

(** C1, as the specification states it, fails: the label open, in
    lower case, is Open under case-insensitive comparison, yet the
    connect operation treats the network as secured: it consults the
    saved credentials and asks for a password. *)
Lemma lowercase_open_treated_as_secured :
  denotesOpen (security lowercaseOpen) = true /\
  isOpenNetwork lowercaseOpen = false /\
  tryConnectWithSavedPassword osAccepts lowercaseOpen "en0" emptyWorld
  = (mkResult false "Password required for this network" (Some true) None,
     logged [EvStorageGet "wifi-password-Lobby"] emptyWorld).
Proof. repeat split. Qed.

(** With no backslash in the password the escaping does its work:
    the shell reads the quoted word of the command back as the
    password. *)
Lemma escaping_sound_without_backslash (pw rest : string) :
  noBackslash pw = true ->
  readDoubleQuoted (escapePassword pw +:+ String "034" rest) = Some (pw, rest).
Proof.
  induction pw as [|c pw IH]; intros H; [reflexivity|].
  simpl in H. apply andb_true_iff in H as [Hc Hpw]. apply negb_true_iff in Hc.
  rewrite escapePassword_cons. unfold isShellMeta.
  destruct (Ascii.eqb c "034") eqn:E1.
  - apply Ascii.eqb_eq in E1. subst c. sapp. simpl. now rewrite (IH Hpw).
  - destruct (Ascii.eqb c "$") eqn:E2.
    + apply Ascii.eqb_eq in E2. subst c. sapp. simpl. now rewrite (IH Hpw).
    + destruct (Ascii.eqb c "`") eqn:E3.
      * apply Ascii.eqb_eq in E3. subst c. sapp. simpl. now rewrite (IH Hpw).
      * sapp. simpl. rewrite E1, E2, E3, Hc. simpl. now rewrite (IH Hpw).
Qed.

(** C9.  The claim fails on the code at the password made of a
    backslash and a double quote, given for a secured network.  The
    escaping leaves the backslash as it is and puts one in front of
    the quote, so the command carries backslash, backslash, quote
    inside its quoted word; the shell reads the two backslashes as one
    quoted backslash, and the quote of the password, left unquoted,
    closes the word: what the shell reads is a lone backslash, not the
    password, and the closing quote of the command is left over. *)
Theorem backslash_quote_not_escaped :
  escapePassword backslashQuote = String backslash (String backslash dquote) /\
  snd (connectToNetwork osAccepts homeNet "en0" (Some backslashQuote) emptyWorld)
  = logged [EvExec ("/usr/sbin/networksetup -setairportnetwork en0 "
                      +:+ dquote +:+ "HomeNet" +:+ dquote +:+ " "
                      +:+ dquote +:+ String backslash (String backslash dquote)
                      +:+ dquote)] emptyWorld /\
  readDoubleQuoted (escapePassword backslashQuote +:+ dquote)
  = Some (String backslash EmptyString, dquote) /\
  readDoubleQuoted (escapePassword backslashQuote +:+ dquote)
  <> Some (backslashQuote, EmptyString).
Proof.
  split; [reflexivity|]. split; [reflexivity|]. split; [reflexivity|].
  discriminate.
Qed.

Lemma open_network_policy_witness :
  tryConnectWithSavedPassword osAccepts cafeWifi "en0" savedWorld
  = (mkResult true "Connected to CafeWifi" None None,
     logged [EvExec (openCommand "en0" "CafeWifi")] savedWorld).
Proof.
  apply (proj1 (proj2 (open_network_policy osAccepts cafeWifi "en0" savedWorld))).
  reflexivity.
Defined.

Lemma saved_password_fallback_witness :
  fst (tryConnectWithSavedPassword osAccepts homeNet "en0" savedWorld)
  = mkResult true "Connected to HomeNet" None (Some true).
Proof.
  assert (Hsec : isOpenNetwork homeNet = false) by reflexivity.
  assert (Hpw : fst (getSavedPassword (ssid homeNet) savedWorld) = Some "hunter2")
    by reflexivity.
  destruct (proj1 (saved_password_fallback osAccepts homeNet "en0" savedWorld Hsec)
              _ Hpw) as (_ & Hok & _).
  exact (Hok EmptyString eq_refl).
Defined.

Lemma explicit_password_escaped_witness :
  snd (connectToNetwork osAccepts homeNet "en0" (Some "pa$s`w") emptyWorld)
  = logged [EvExec (securedCommand "en0" "HomeNet" (escapeEach "pa$s`w"))] emptyWorld.
Proof.
  assert (Hsec : isOpenNetwork homeNet = false) by reflexivity.
  assert (Hpw : "pa$s`w" <> EmptyString) by discriminate.
  destruct (explicit_password_escaped osAccepts homeNet "en0" "pa$s`w" emptyWorld)
    as (_ & _ & _ & H).
  now rewrite (H Hsec Hpw).
Defined.

Lemma credential_lookups_never_empty_witness :
  fst (getSavedPassword "HomeNet" emptyWorld) = None.
Proof.
  destruct (credential_lookups_never_empty osAccepts (fun s => s) "HomeNet" emptyWorld)
    as (_ & _ & _ & _ & H).
  apply H. left. reflexivity.
Defined.

End ConnectorTheorems.

(** ** The cache and the connect handler *)

Module CacheTheorems.
Import JS Spec JSFacts App ConnectorFacts.

Section WithPlatform.

Variable execSync : string -> Scanner.ExecResult.
Variable JSON_stringify : CachedData -> string.
Variable JSON_parse : string -> option CachedData.

Local Abbreviation read := (getCachedNetworks JSON_parse).
Local Abbreviation write := (setCachedNetworks JSON_stringify).
Local Abbreviation connect := (connectToNetwork execSync).
Local Abbreviation reload := (loadNetworks execSync JSON_stringify JSON_parse).
Local Abbreviation handle := (handleConnect execSync JSON_stringify JSON_parse).

Lemma read_absent (w : World) :
  cache w !! CACHE_KEY = None -> read w = (None, w).
Proof. intros H. unfold getCachedNetworks. now rewrite H. Qed.

Lemma read_present (w : World) (blob : string) (d : CachedData) :
  cache w !! CACHE_KEY = Some blob -> blob <> EmptyString ->
  JSON_parse blob = Some d ->
  read w =
  (if (version d =? CACHE_VERSION) && (clock w - timestamp d <? CACHE_DURATION)
   then Some d else None, w).
Proof.
  intros H Hne Hp. unfold getCachedNetworks. rewrite H.
  destruct blob as [|c b]; [now elim Hne|]. simpl. rewrite Hp.
  now destruct (_ && _).
Qed.

Lemma cleared_slot (w : World) :
  cache (snd (clearNetworksCache w)) !! CACHE_KEY = None.
Proof. simpl. apply lookup_delete_eq. Qed.

Lemma written_slot (nets : list WiFiNetwork) (current : string) (w : World) :
  cache (snd (write nets current w)) !! CACHE_KEY
  = Some (JSON_stringify (mkCachedData CACHE_VERSION nets current (clock w))).
Proof. simpl. apply lookup_insert_eq. Qed.

(** C8.  Cache round trip.  Provided the JSON of the runtime gives
    back the entry it serialized (and rejects the empty text): right
    after a write, and as long as less than 5000 ms have passed on
    the clock, a read returns the entry holding the snapshot that was
    written; once 5000 ms or more have passed a read returns absent;
    after an invalidation a read returns absent; and a stored entry
    whose version tag differs from the version constant of the code
    reads as absent. *)
Theorem cache_roundtrip (nets : list WiFiNetwork) (current : string) (w : World) :
  let entry := mkCachedData CACHE_VERSION nets current (clock w) in
  let written := snd (write nets current w) in
  JSON_parse (JSON_stringify entry) = Some entry ->
  JSON_parse EmptyString = None ->
  (fst (read written) = Some entry /\
   networks entry = nets /\ currentSSID entry = current) /\
  (forall t, t - clock w < CACHE_DURATION ->
             fst (read (setClock t written)) = Some entry) /\
  (forall t, CACHE_DURATION <= t - clock w ->
             fst (read (setClock t written)) = None) /\
  (forall t, fst (read (setClock t (snd (clearNetworksCache written)))) = None) /\
  (forall w' blob d,
      cache w' !! CACHE_KEY = Some blob -> JSON_parse blob = Some d ->
      version d <> CACHE_VERSION -> fst (read w') = None).
Proof.
  intros entry written Hrt Hempty.
  assert (Hne : JSON_stringify entry <> EmptyString).
  { intros E. rewrite E in Hrt. congruence. }
  assert (Hat : forall t, read (setClock t written)
            = (if t - clock w <? CACHE_DURATION then Some entry else None,
               setClock t written)).
  { intros t.
    rewrite (read_present (setClock t written) (JSON_stringify entry) entry);
      [reflexivity | apply lookup_insert_eq | exact Hne | exact Hrt]. }
  split; [|split; [|split; [|split]]].
  - split; [|split; reflexivity].
    replace written with (setClock (clock w) written) by reflexivity.
    rewrite Hat. simpl. rewrite Z.sub_diag. reflexivity.
  - intros t Ht. rewrite Hat. simpl.
    now rewrite (proj2 (Z.ltb_lt _ _) Ht).
  - intros t Ht. rewrite Hat. simpl.
    now rewrite (proj2 (Z.ltb_ge _ _) Ht).
  - intros t. rewrite read_absent; [reflexivity|]. apply lookup_delete_eq.
  - intros w' blob d Hslot Hp Hv.
    destruct blob as [|c b].
    + unfold getCachedNetworks. now rewrite Hslot.
    + rewrite (read_present w' (String c b) d Hslot ltac:(discriminate) Hp).
      now rewrite (proj2 (Z.eqb_neq _ _) Hv).
Qed.

(** The connector touches neither the cache nor the clock. *)
Lemma connect_frame (n : WiFiNetwork) (iface : string) (pw : option string)
    (w : World) :
  cache (snd (connect n iface pw w)) = cache w /\
  clock (snd (connect n iface pw w)) = clock w.
Proof.
  unfold connectToNetwork, runConnect, runExec, bind, emit, ret.
  destruct (isOpenNetwork n).
  - now destruct (execSync _).
  - destruct pw as [[|c s]|]; simpl; auto. now destruct (execSync _).
Qed.

(** A reload that finds the slot empty scans afresh and writes the
    result. *)
Lemma reload_fresh (w : World) :
  cache w !! CACHE_KEY = None ->
  let scan := Scanner.scanNetworksAndGetCurrent (execSync scanCommand) in
  cache (snd (reload w))
  = <[CACHE_KEY := JSON_stringify
                     (mkCachedData CACHE_VERSION (Scanner.availableNetworks scan)
                                   (Scanner.currentNetwork scan) (clock w))]>
      (cache w) /\
  (exists tail, log (snd (reload w)) = log w ++ EvExec scanCommand :: tail) /\
  hookNetworks (snd (reload w)) = Scanner.availableNetworks scan.
Proof.
  intros H scan. unfold loadNetworks, bind. rewrite (read_absent w H).
  unfold runScan, runExec, bind, emit, ret, setIsLoading. simpl.
  subst scan. destruct (execSync scanCommand); simpl.
  - split; [reflexivity|]. split; [now exists []|reflexivity].
  - split; [reflexivity|]. split; [|reflexivity].
    eexists. now rewrite <- app_assoc.
Qed.

(** C3 (as amended).  When the connect handler makes an attempt and
    the attempt succeeds, the cache slot is cleared: the read that
    follows returns absent, so the reload scans afresh and writes
    the new snapshot into the slot.  When the attempt fails, the
    handler leaves the cache as it was. *)
Theorem cache_cleared_after_success (iface : string) (n : WiFiNetwork)
    (pw : option string) (w : World) :
  showsPasswordForm n pw = false ->
  let toast := EvToast Animated ("Connecting to " +:+ ssid n +:+ "...") None in
  let attempt := connect n iface pw (logged [toast] w) in
  let final := snd (handle iface n pw w) in
  (success (fst attempt) = true ->
   exists cleared,
     cache cleared !! CACHE_KEY = None /\
     fst (read cleared) = None /\
     final = snd (setSelectedNetwork None (snd (reload cleared))) /\
     (exists scan,
        scan = Scanner.scanNetworksAndGetCurrent (execSync scanCommand) /\
        cache final !! CACHE_KEY
        = Some (JSON_stringify
                  (mkCachedData CACHE_VERSION (Scanner.availableNetworks scan)
                                (Scanner.currentNetwork scan) (clock w))) /\
        In (EvExec scanCommand) (log final))) /\
  (success (fst attempt) = false -> cache final = cache w).
Proof.
  intros Hguard toast attempt final.
  assert (Hfinal : final =
            snd (let (result, w2) := attempt in
                 (if negb (success result) then
                    showToast Failure "Connection Failed" (Some (message result))
                  else
                    (showToast Success (message result) None ;;
                     clearNetworksCache ;;
                     reload ;;
                     setSelectedNetwork None)) w2)).
  { subst final. unfold handleConnect. rewrite Hguard. reflexivity. }
  destruct (connect_frame n iface pw (logged [toast] w)) as [Hcache Hclock].
  fold attempt in Hcache, Hclock.
  destruct attempt as [result w2]. simpl in Hcache, Hclock |- *. split.
  - intros Hok. rewrite Hok in Hfinal. simpl in Hfinal.
    set (cleared := snd (clearNetworksCache
                           (snd (showToast Success (message result) None w2)))).
    assert (Hslot : cache cleared !! CACHE_KEY = None) by apply cleared_slot.
    assert (Hfinal' : final = snd (setSelectedNetwork None (snd (reload cleared)))).
    { rewrite Hfinal. unfold bind. subst cleared. simpl.
      now destruct (reload _). }
    exists cleared. split; [exact Hslot|].
    split; [now rewrite (read_absent cleared Hslot)|].
    split; [exact Hfinal'|].
    destruct (reload_fresh cleared Hslot) as (Hc & [tail Hl] & _).
    eexists. split; [reflexivity|]. rewrite Hfinal'. simpl. split.
    + rewrite Hc, lookup_insert_eq. subst cleared. simpl. now rewrite Hclock.
    + rewrite Hl. apply in_or_app. right. now left.
  - intros Hko. rewrite Hko in Hfinal. simpl in Hfinal.
    rewrite Hfinal. simpl. exact Hcache.
Qed.

End WithPlatform.

Lemma cache_roundtrip_witness :
  fst (getCachedNetworks sampleParse
         (snd (setCachedNetworks sampleStringify [homeNet; cafeWifi] "HomeNet"
                                 emptyWorld)))
  = Some cachedEntry.
Proof.
  destruct (cache_roundtrip sampleStringify sampleParse [homeNet; cafeWifi] "HomeNet"
              emptyWorld eq_refl eq_refl) as [[H _] _].
  exact H.
Defined.

(** C3, as the specification states it, fails: with a fresh entry in
    the cache, an attempt on a secured network with an explicit
    password that the operating system rejects is made (the command is
    in the trace) and fails, and the read that follows still returns
    the entry: the slot was not cleared. *)
Lemma failed_attempt_keeps_cache :
  let final := snd (handleConnect osRejects sampleStringify sampleParse
                                  "en0" homeNet (Some "wrong") cachedWorld) in
  In (EvExec (securedCommand "en0" "HomeNet" "wrong")) (log final) /\
  success (fst (connectToNetwork osRejects homeNet "en0" (Some "wrong") cachedWorld))
  = false /\
  fst (getCachedNetworks sampleParse final) = Some cachedEntry.
Proof.
  vm_compute. split; [|split; reflexivity]. right. left. reflexivity.
Qed.

Lemma cache_cleared_after_success_witness :
  exists cleared,
    fst (getCachedNetworks sampleParse cleared) = None /\
    snd (handleConnect osAccepts sampleStringify sampleParse
                       "en0" homeNet (Some "hunter2") cachedWorld)
    = snd (setSelectedNetwork None
             (snd (loadNetworks osAccepts sampleStringify sampleParse cleared))).
Proof.
  destruct (proj1 (cache_cleared_after_success osAccepts sampleStringify sampleParse
                     "en0" homeNet (Some "hunter2") cachedWorld eq_refl) eq_refl)
    as (cleared & _ & Hread & Hfinal & _).
  exists cleared. split; [exact Hread | exact Hfinal].
Defined.

End CacheTheorems.

(** * Further properties *)

(** ** The scanner: order, flags, defaults, section end *)

Module ScannerExtras.
Import JS Spec JSFacts Scanner ScannerFacts.

(** *** Order of the records *)

Lemma insertByRssi_head (x : WiFiNetwork) (l : list WiFiNetwork) (b : WiFiNetwork) :
  HdRel (fun a b => rssi b <= rssi a) b l -> rssi x <= rssi b ->
  HdRel (fun a b => rssi b <= rssi a) b (insertByRssi x l).
Proof.
  intros Hl Hx. destruct l as [|y r]; simpl.
  - now constructor.
  - destruct (rssi y - rssi x <=? 0); constructor; [exact Hx|].
    now inversion Hl.
Qed.

Lemma insertByRssi_sorted (x : WiFiNetwork) (l : list WiFiNetwork) :
  strongestFirst l -> strongestFirst (insertByRssi x l).
Proof.
  unfold strongestFirst. induction 1 as [|y r Hr IH Hy]; simpl.
  - repeat constructor.
  - destruct (rssi y - rssi x <=? 0) eqn:E.
    + constructor; [now constructor|]. constructor. lia.
    + constructor; [exact IH|]. apply insertByRssi_head; [exact Hy | lia].
Qed.

Lemma sortByRssi_sorted (l : list WiFiNetwork) : strongestFirst (sortByRssi l).
Proof.
  induction l as [|x r IH]; simpl; [constructor|].
  now apply insertByRssi_sorted.
Qed.

(** X1.  When every signal reading of a snapshot is within the range
    in which [parseInt] is exact (at most 2^53 in absolute value), so
    that the records hold the very numbers the code holds, the records
    are ordered strongest signal first: each record is at least as
    strong as the one after it. *)
Theorem records_strongest_first (r : ExecResult) :
  Forall exactReading (availableNetworks (scanNetworksAndGetCurrent r)) ->
  strongestFirst (availableNetworks (scanNetworksAndGetCurrent r)).
Proof.
  intros _. destruct r as [output|error]; [|constructor].
  apply sortByRssi_sorted.
Qed.

Lemma records_strongest_first_witness :
  strongestFirst [homeNet; cafeWifi].
Proof.
  pose proof (records_strongest_first (Stdout sampleReport)) as H.
  rewrite ScannerTheorems.parse_sampleReport in H. apply H.
  repeat (apply List.Forall_cons; [unfold exactReading; simpl; lia|]).
  apply List.Forall_nil.
Defined.

(** *** What every pushed entry looks like *)

Lemma pushIfComplete_shape (current : string) (e : PartialNetwork)
    (acc : list WiFiNetwork) :
  pushIfComplete current e acc = acc \/
  exists s c,
    p_ssid e = Some s /\ p_channel e = Some c /\
    s <> EmptyString /\ c <> EmptyString /\
    pushIfComplete current e acc
    = acc ++ [ {| ssid := s;
                  rssi := rssiOrDefault (p_rssi e);
                  security := orElse (p_security e) "Unknown";
                  channel := c;
                  bssid := orElse (p_bssid e) (s +:+ "-" +:+ c);
                  isConnected := strictEq s current |} ].
Proof.
  unfold pushIfComplete.
  destruct (p_ssid e) as [[|a s]|]; auto.
  destruct (p_channel e) as [[|b c]|]; auto.
  right. exists (String a s), (String b c). repeat split; congruence.
Qed.

Lemma rssiOrDefault_nonzero (o : option Z) : rssiOrDefault o <> 0.
Proof.
  unfold rssiOrDefault. destruct o as [v|]; [|lia].
  destruct (v =? 0) eqn:E; lia.
Qed.

Lemma orElse_nonempty (o : option string) (d : string) :
  d <> EmptyString -> orElse o d <> EmptyString.
Proof. destruct o as [[|c s]|]; simpl; congruence. Qed.

Lemma firstToken_noWhiteSpace (s : string) : noWhiteSpace (firstToken s) = true.
Proof.
  induction s as [|c s IH]; simpl; [reflexivity|].
  destruct (isWhiteSpace c) eqn:E; simpl; [reflexivity|]. now rewrite E.
Qed.

Lemma setProperty_tokenChannel (trimmed : string) (e : PartialNetwork) :
  tokenChannel e -> tokenChannel (setProperty trimmed e).
Proof.
  intros He. unfold setProperty.
  destruct (startsWith trimmed "Security:"); [exact He|].
  destruct (startsWith trimmed "Channel:").
  - intros c Hc. simpl in Hc. injection Hc as <-. apply firstToken_noWhiteSpace.
  - destruct (includes trimmed "Signal / Noise:"); [exact He|].
    destruct (_ || _); exact He.
Qed.

Lemma pushIfComplete_wellFormed (current : string) (e : PartialNetwork)
    (acc : list WiFiNetwork) :
  tokenChannel e -> Forall (wellFormed current) acc ->
  Forall (wellFormed current) (pushIfComplete current e acc).
Proof.
  intros He Hacc.
  destruct (pushIfComplete_shape current e acc)
    as [->|(s & c & Hs & Hc & Hsne & Hcne & ->)]; [exact Hacc|].
  apply Forall_app. split; [exact Hacc|]. constructor; [|constructor].
  unfold wellFormed. simpl. split; [apply rssiOrDefault_nonzero|].
  split; [now apply orElse_nonempty|].
  split; [apply orElse_nonempty; destruct s; [now elim Hsne | discriminate]|].
  split; [now apply He | reflexivity].
Qed.

Lemma scanLines_wellFormed (current : string) (lines : list string) :
  forall st, tokenChannel (currentEntry st) ->
             Forall (wellFormed current) (collected st) ->
             tokenChannel (currentEntry (scanLines current lines st)) /\
             Forall (wellFormed current) (collected (scanLines current lines st)).
Proof.
  induction lines as [|line rest IH]; intros st He Hst; simpl; [now split|].
  destruct (includes (trim line) _); [now apply IH|].
  destruct (negb (inNetworkSection st)); [now apply IH|].
  destruct (isMajorSection line); [now split|].
  destruct (strictEq (trim line) EmptyString); [now apply IH|].
  unfold classifyLine.
  destruct (negb (hasPropertyFormat (trim line)) && _).
  - destruct (searchNonSpace line =? _); apply IH; simpl; auto.
    + intros c Hc. discriminate Hc.
    + now apply pushIfComplete_wellFormed.
  - destruct (hasPropertyFormat (trim line) && _); apply IH; simpl; auto.
    now apply setProperty_tokenChannel.
Qed.

Lemma parseNetworks_wellFormed (current : string) (lines : list string) :
  Forall (wellFormed current) (parseNetworks current lines).
Proof.
  unfold parseNetworks.
  destruct (scanLines_wellFormed current lines initialLoopState) as [He Hst].
  - intros c Hc. discriminate Hc.
  - constructor.
  - now apply pushIfComplete_wellFormed.
Qed.

Lemma records_wellFormed (output : string) (n : WiFiNetwork) :
  In n (availableNetworks (parseReport output)) ->
  wellFormed (currentNetwork (parseReport output)) n.
Proof.
  intros Hin. apply availableNetworks_from_parse in Hin.
  pose proof (parseNetworks_wellFormed
                (findCurrentNetwork false (splitChar "010" output))
                (splitChar "010" output)) as Hall.
  rewrite Forall_forall in Hall. apply Hall. now apply list_elem_of_In.
Qed.

(** X3.  The connected flag of a record says exactly whether its SSID
    is the current network of the same snapshot; in particular, when
    no current network was found no record is flagged. *)
Theorem connected_flag_matches_current (output : string) (n : WiFiNetwork) :
  let snapshot := scanNetworksAndGetCurrent (Stdout output) in
  In n (availableNetworks snapshot) ->
  (isConnected n = true <-> ssid n = currentNetwork snapshot) /\
  (currentNetwork snapshot = EmptyString -> isConnected n = false).
Proof.
  intros snapshot Hin.
  destruct (records_wellFormed output n Hin) as (_ & _ & _ & _ & Hflag).
  fold (scanNetworksAndGetCurrent (Stdout output)) in Hflag. fold snapshot in Hflag.
  split.
  - rewrite Hflag. apply String.eqb_eq.
  - intros Hcur. rewrite Hflag, Hcur.
    destruct (ScannerTheorems.records_complete (Stdout output) n Hin) as [Hs _].
    apply String.eqb_neq. exact Hs.
Qed.

(** The loop keeps what it is told to keep: an invariant [I] of the
    accumulated entry that every new entry has and every property
    line of the report keeps, and a property [P] of the records that
    every push of an entry with [I] keeps. *)
Lemma scanLines_invariant (I : PartialNetwork -> Prop) (P : WiFiNetwork -> Prop)
    (current : string) (lines : list string) :
  (forall s, I (mkPartial (Some s) None None None None)) ->
  Forall (fun line => forall e, I e -> I (setProperty (trim line) e)) lines ->
  (forall e acc, I e -> Forall P acc -> Forall P (pushIfComplete current e acc)) ->
  forall st, I (currentEntry st) -> Forall P (collected st) ->
             I (currentEntry (scanLines current lines st)) /\
             Forall P (collected (scanLines current lines st)).
Proof.
  intros Hnew Hlines Hpush.
  induction Hlines as [|line rest Hline _ IH]; intros st He Hst; simpl; [now split|].
  destruct (includes (trim line) _); [now apply IH|].
  destruct (negb (inNetworkSection st)); [now apply IH|].
  destruct (isMajorSection line); [now split|].
  destruct (strictEq (trim line) EmptyString); [now apply IH|].
  unfold classifyLine.
  destruct (negb (hasPropertyFormat (trim line)) && _).
  - destruct (searchNonSpace line =? _); apply IH; simpl; auto.
  - destruct (hasPropertyFormat (trim line) && _); apply IH; simpl; auto.
Qed.

Lemma records_invariant (I : PartialNetwork -> Prop) (P : WiFiNetwork -> Prop)
    (output : string) :
  I emptyEntry ->
  (forall s, I (mkPartial (Some s) None None None None)) ->
  Forall (fun line => forall e, I e -> I (setProperty (trim line) e))
         (splitChar "010" output) ->
  (forall current e acc,
      I e -> Forall P acc -> Forall P (pushIfComplete current e acc)) ->
  forall n, In n (availableNetworks (parseReport output)) -> P n.
Proof.
  intros Hempty Hnew Hlines Hpush n Hin.
  apply availableNetworks_from_parse in Hin.
  assert (Hall : Forall P (parseNetworks
                             (findCurrentNetwork false (splitChar "010" output))
                             (splitChar "010" output))).
  { unfold parseNetworks.
    destruct (scanLines_invariant I P
                (findCurrentNetwork false (splitChar "010" output))
                (splitChar "010" output) Hnew Hlines (Hpush _)
                initialLoopState Hempty) as [He Hst]; [constructor|].
    now apply Hpush. }
  rewrite Forall_forall in Hall. apply Hall. now apply list_elem_of_In.
Qed.

(** The three defaults, at the push. *)
Lemma pushIfComplete_default (P : WiFiNetwork -> Prop)
    (current : string) (e : PartialNetwork) (acc : list WiFiNetwork) :
  (forall s c,
      p_ssid e = Some s -> p_channel e = Some c ->
      P {| ssid := s;
           rssi := rssiOrDefault (p_rssi e);
           security := orElse (p_security e) "Unknown";
           channel := c;
           bssid := orElse (p_bssid e) (s +:+ "-" +:+ c);
           isConnected := strictEq s current |}) ->
  Forall P acc -> Forall P (pushIfComplete current e acc).
Proof.
  intros HP Hacc.
  destruct (pushIfComplete_shape current e acc)
    as [->|(s & c & Hs & Hc & _ & _ & ->)]; [exact Hacc|].
  apply Forall_app. split; [exact Hacc|]. constructor; [|constructor]. now apply HP.
Qed.

(** X4.  No record of a snapshot is left without a signal strength, a
    security label or a station identifier, and the values filled in
    are the ones of the code: the strength is never 0, and it is -70
    whenever no signal line of the report gave a reading other than 0
    (none at all included); the label is never empty, and it is
    Unknown when the report has no security line; the identifier is
    never empty, and it is the SSID, a hyphen and the channel when the
    report has neither a BSSID nor a MAC address line. *)
Theorem records_have_defaults (output : string) (n : WiFiNetwork) :
  In n (availableNetworks (scanNetworksAndGetCurrent (Stdout output))) ->
  (rssi n <> 0 /\ security n <> EmptyString /\ bssid n <> EmptyString) /\
  (Forall (fun line =>
             includes (trim line) "Signal / Noise:" = true ->
             matchSignedInt (trim line) = None \/
             matchSignedInt (trim line) = Some 0)
          (splitChar "010" output) ->
   rssi n = -70) /\
  (Forall (fun line => startsWith (trim line) "Security:" = false)
          (splitChar "010" output) ->
   security n = "Unknown") /\
  (Forall (fun line => startsWith (trim line) "BSSID:" = false /\
                       startsWith (trim line) "MAC Address:" = false)
          (splitChar "010" output) ->
   bssid n = ssid n +:+ "-" +:+ channel n).
Proof.
  intros Hin. split; [|split; [|split]].
  - destruct (records_wellFormed output n Hin) as (H1 & H2 & H3 & _). auto.
  - intros Hlines.
    apply (records_invariant
             (fun e => p_rssi e = None \/ p_rssi e = Some 0 \/ p_rssi e = Some (-70))
             (fun m => rssi m = -70) output); auto.
    + eapply Forall_impl; [exact Hlines|]. simpl. intros line Hline e He.
      unfold setProperty.
      destruct (startsWith (trim line) "Security:"); [exact He|].
      destruct (startsWith (trim line) "Channel:"); [exact He|].
      destruct (includes (trim line) "Signal / Noise:").
      * simpl. destruct (Hline eq_refl) as [-> | ->]; auto.
      * destruct (_ || _); exact He.
    + intros current e acc He. apply pushIfComplete_default.
      intros s c _ _. simpl. now destruct He as [-> | [-> | ->]].
  - intros Hlines.
    apply (records_invariant (fun e => p_security e = None)
             (fun m => security m = "Unknown") output); auto.
    + eapply Forall_impl; [exact Hlines|]. simpl. intros line Hline e He.
      unfold setProperty. rewrite Hline.
      destruct (startsWith (trim line) "Channel:"); [exact He|].
      destruct (includes (trim line) "Signal / Noise:"); [exact He|].
      destruct (_ || _); exact He.
    + intros current e acc He. apply pushIfComplete_default.
      intros s c _ _. simpl. now rewrite He.
  - intros Hlines.
    apply (records_invariant (fun e => p_bssid e = None)
             (fun m => bssid m = ssid m +:+ "-" +:+ channel m) output); auto.
    + eapply Forall_impl; [exact Hlines|]. simpl. intros line [Hb Hm] e He.
      unfold setProperty. rewrite Hb, Hm.
      destruct (startsWith (trim line) "Security:"); [exact He|].
      destruct (startsWith (trim line) "Channel:"); [exact He|].
      destruct (includes (trim line) "Signal / Noise:"); exact He.
    + intros current e acc He. apply pushIfComplete_default.
      intros s c _ _. simpl. now rewrite He.
Qed.

(** X5.  The channel of a record is a single token: it contains no
    white space, whatever followed the channel number in the report. *)
Theorem record_channel_single_token (r : ExecResult) (n : WiFiNetwork) :
  In n (availableNetworks (scanNetworksAndGetCurrent r)) ->
  noWhiteSpace (channel n) = true.
Proof.
  intros Hin. destruct r as [output|error]; [|destruct Hin].
  now destruct (records_wellFormed output n Hin) as (_ & _ & _ & H & _).
Qed.

Lemma records_have_defaults_witness :
  rssi guest = -70 /\ security guest = "Unknown" /\ bssid guest = "Guest-11".
Proof.
  assert (Hin : In guest
                  (availableNetworks (scanNetworksAndGetCurrent (Stdout bareReport)))).
  { vm_compute. left. reflexivity. }
  destruct (records_have_defaults bareReport guest Hin) as (_ & Hr & Hs & Hb).
  assert (E : splitChar "010" bareReport
              = ["Other Local Wi-Fi Networks:"; "            Guest:";
                 "              Channel: 11 (2GHz, 20MHz)"; EmptyString])
    by reflexivity.
  rewrite E in Hr, Hs, Hb. split; [|split].
  - apply Hr.
    repeat (apply List.Forall_cons; [intros H; vm_compute in H; discriminate H|]).
    apply List.Forall_nil.
  - apply Hs. repeat (apply List.Forall_cons; [reflexivity|]). apply List.Forall_nil.
  - apply Hb. repeat (apply List.Forall_cons; [split; reflexivity|]). apply List.Forall_nil.
Defined.

Lemma record_channel_single_token_witness : noWhiteSpace (channel cafeWifi) = true.
Proof.
  apply (record_channel_single_token (Stdout sampleReport) cafeWifi).
  vm_compute. right. left. reflexivity.
Defined.

Lemma connected_flag_matches_current_witness :
  isConnected homeNet = true <-> ssid homeNet = "HomeNet".
Proof.
  apply (connected_flag_matches_current sampleReport homeNet).
  vm_compute. left. reflexivity.
Defined.

(** *** The end of the network section *)

Lemma scanLines_stops (current : string) (pre : list string) (l : string)
    (post : list string) :
  isMajorSection l = true -> includes (trim l) networksHeader = false ->
  forall st, inNetworkSection (scanLines current pre st) = true ->
             scanLines current (pre ++ l :: post) st = scanLines current pre st.
Proof.
  intros Hl Hh. unfold networksHeader in Hh.
  induction pre as [|x pre IH]; intros st Hst; simpl in *.
  - now rewrite Hh, Hst, Hl.
  - destruct (includes (trim x) _); [now apply IH|].
    destruct (negb (inNetworkSection st)); [now apply IH|].
    destruct (isMajorSection x); [reflexivity|].
    destruct (strictEq (trim x) EmptyString); now apply IH.
Qed.

(** X6.  The network section ends at the first line that starts at
    column 0 with something other than a space and contains a colon:
    once the section has been entered, such a line and everything
    after it contribute no entry. *)
Theorem entries_after_section_end_ignored (current : string)
    (pre : list string) (l : string) (post : list string) :
  inNetworkSection (scanLines current pre initialLoopState) = true ->
  isMajorSection l = true ->
  includes (trim l) networksHeader = false ->
  parseNetworks current (pre ++ l :: post) = parseNetworks current pre.
Proof.
  intros Hin Hl Hh. unfold parseNetworks.
  now rewrite (scanLines_stops current pre l post Hl Hh initialLoopState Hin).
Qed.

Lemma entries_after_section_end_ignored_witness :
  parseNetworks "HomeNet"
    (splitChar "010" sampleReport
     ++ "Bluetooth:" :: ["            Later:"; "              Channel: 1"])
  = parseNetworks "HomeNet" (splitChar "010" sampleReport).
Proof.
  apply entries_after_section_end_ignored; reflexivity.
Defined.

(** *** The current network *)

Lemma stripTrailingColon_head (c : ascii) (r : string) :
  isIdentChar c = true ->
  exists r', stripTrailingColon (String c r) = String c r'.
Proof.
  intros Hc. destruct r as [|d r]; simpl.
  - destruct (Ascii.eqb c ":") eqn:E; [|now exists EmptyString].
    apply Ascii.eqb_eq in E. subst c. discriminate Hc.
  - eexists. reflexivity.
Qed.

Lemma findCurrentNetwork_shape (lines : list string) :
  forall found,
    findCurrentNetwork found lines = EmptyString \/
    exists line c r,
      In line lines /\
      findCurrentNetwork found lines = stripTrailingColon (trim line) /\
      findCurrentNetwork found lines = String c r /\ isIdentChar c = true.
Proof.
  induction lines as [|line rest IH]; intros found; simpl; [now left|].
  assert (Hrec : forall b,
             findCurrentNetwork b rest = EmptyString \/
             exists line0 c r,
               (line = line0 \/ In line0 rest) /\
               findCurrentNetwork b rest = stripTrailingColon (trim line0) /\
               findCurrentNetwork b rest = String c r /\ isIdentChar c = true).
  { intros b. destruct (IH b) as [H|(l0 & c & r & Hin & H1 & H2 & H3)]; [now left|].
    right. exists l0, c, r. auto. }
  destruct (includes line _); [apply Hrec|].
  destruct found; simpl; [|apply Hrec].
  destruct (trim line) as [|c r] eqn:Et; simpl.
  - destruct (includes line ":" && _); [now left | apply Hrec].
  - destruct (isIdentChar c) eqn:Ec.
    + right. destruct (stripTrailingColon_head c r Ec) as [r' Hr'].
      exists line, c, r'. rewrite Et. auto.
    + destruct (includes line ":" && _); [now left | apply Hrec].
Qed.

(** X7.  The current network of a snapshot is either empty or the
    trimmed text of one line of the report with at most one trailing
    colon removed, and then it starts with a letter, a digit, a hyphen
    or an underscore. *)
Theorem current_network_shape (output : string) :
  let current := currentNetwork (scanNetworksAndGetCurrent (Stdout output)) in
  current = EmptyString \/
  exists line c r,
    In line (splitChar "010" output) /\
    current = stripTrailingColon (trim line) /\
    current = String c r /\ isIdentChar c = true.
Proof. apply findCurrentNetwork_shape. Qed.

End ScannerExtras.

(** ** The connector: what is run, what is reported, what is left alone *)

Module ConnectorExtras.
Import JS Spec JSFacts App ConnectorFacts.

Lemma escapeEach_head (s : string) (c : ascii) (q : string) :
  escapeEach s = String c q -> isShellMeta c = false.
Proof.
  intros H. destruct (isShellMeta c) eqn:Hc; [|reflexivity].
  destruct (escapeEach_prefixed s EmptyString c q H Hc) as [p' Hp'].
  destruct p'; discriminate Hp'.
Qed.

Lemma escapeEach_inj (s t : string) : escapeEach s = escapeEach t -> s = t.
Proof.
  revert t. induction s as [|a s IH]; intros [|b t] H; simpl in H.
  - reflexivity.
  - destruct (isShellMeta b); discriminate H.
  - destruct (isShellMeta a); discriminate H.
  - destruct (isShellMeta a) eqn:Ha, (isShellMeta b) eqn:Hb.
    + injection H as -> H. now rewrite (IH t H).
    + injection H as <- H. symmetry in H. apply escapeEach_head in H. congruence.
    + injection H as -> H. apply escapeEach_head in H. congruence.
    + injection H as -> H. now rewrite (IH t H).
Qed.

Lemma escapeEach_plain (s : string) :
  (forall p c q, s = p +:+ String c q -> isShellMeta c = false) ->
  escapeEach s = s.
Proof.
  induction s as [|c s IH]; intros H; simpl; [reflexivity|].
  rewrite (H EmptyString c s eq_refl).
  rewrite IH; [reflexivity|].
  intros p d q Hs. apply (H (String c p) d q). now rewrite Hs.
Qed.

Lemma network_in_command (iface name : string) (pw : string) :
  occursIn "network" (openCommand iface name) /\
  occursIn "network" (securedCommand iface name pw).
Proof.
  split.
  - exists "/usr/sbin/", ("setup -setairportnetwork " +:+ iface
                         +:+ " " +:+ dquote +:+ name +:+ dquote).
    reflexivity.
  - exists "/usr/sbin/", ("setup -setairportnetwork " +:+ iface
                         +:+ " " +:+ dquote +:+ name +:+ dquote
                         +:+ " " +:+ dquote +:+ pw +:+ dquote).
    reflexivity.
Qed.

Lemma classifyError_masks (err : string) :
  occursIn "network" err ->
  message (classifyError err) = "Incorrect password or authentication failed" \/
  message (classifyError err) = "Network not available".
Proof.
  intros H. apply includes_occursIn in H. unfold classifyError.
  destruct (includes err "password" || includes err "authentication"); [now left|].
  rewrite H. now right.
Qed.

Section WithPlatform.

Variable execSync : string -> Scanner.ExecResult.

Local Abbreviation connect := (connectToNetwork execSync).
Local Abbreviation tryConnect := (tryConnectWithSavedPassword execSync).

Lemma connect_without_password (n : WiFiNetwork) (iface : string)
    (pw : option string) (w : World) :
  isOpenNetwork n = false -> orNull pw = None ->
  connect n iface pw w
  = (mkResult false "Password required for this network" (Some true) None, w).
Proof.
  intros H Hpw. unfold connectToNetwork. rewrite H.
  destruct pw as [[|c s]|]; try reflexivity. discriminate Hpw.
Qed.

(** The three ways a call of [connectToNetwork] can go. *)
Lemma connect_cases (n : WiFiNetwork) (iface : string) (pw : option string)
    (w : World) :
  (isOpenNetwork n = false /\ orNull pw = None /\
   connect n iface pw w
   = (mkResult false "Password required for this network" (Some true) None, w)) \/
  (exists command,
     connect n iface pw w
     = (outcome n (execSync command), logged [EvExec command] w) /\
     occursIn "network" command).
Proof.
  destruct (isOpenNetwork n) eqn:Hopen.
  - right. exists (openCommand iface (ssid n)). split.
    + apply (ConnectorTheorems.connect_open execSync n iface pw w Hopen).
    + apply (network_in_command iface (ssid n) EmptyString).
  - destruct (orNull pw) as [p|] eqn:Hpw.
    + apply orNull_Some in Hpw as [-> Hne]. right.
      exists (securedCommand iface (ssid n) (escapePassword p)). split.
      * apply (ConnectorTheorems.connect_secured execSync n iface p w Hopen Hne).
      * apply network_in_command.
    + left. split; [reflexivity|]. split; [reflexivity|].
      now apply connect_without_password.
Qed.

Lemma logged_nil (w : World) : logged [] w = w.
Proof. destruct w. unfold logged. simpl. now rewrite app_nil_r. Qed.

(** X8.  For an open network the supplied password plays no part:
    the result and the trace are the same with any password or with
    none, and the one command that is run is the one without a
    password. *)
Theorem open_network_ignores_password (n : WiFiNetwork) (iface : string)
    (pw pw' : option string) (w : World) :
  isOpenNetwork n = true ->
  connect n iface pw w = connect n iface pw' w /\
  snd (connect n iface pw w) = logged [EvExec (openCommand iface (ssid n))] w.
Proof.
  intros H. rewrite !(ConnectorTheorems.connect_open execSync n iface _ w H).
  now split.
Qed.

(** X9.  A call of the connect operation changes nothing but the
    trace, to which it adds at most one command: the cache, the
    saved passwords, the clock and the state of the screen are left
    as they were.  It runs no command at all exactly when the
    network is secured and no usable password (none, or the empty
    string) was given, and then the result asks for a password. *)
Theorem connect_runs_at_most_one_command (n : WiFiNetwork) (iface : string)
    (pw : option string) (w : World) :
  exists events,
    snd (connect n iface pw w) = logged events w /\
    (events = [] \/ exists command, events = [EvExec command]) /\
    (events = [] <-> isOpenNetwork n = false /\ orNull pw = None) /\
    (events = [] ->
     fst (connect n iface pw w)
     = mkResult false "Password required for this network" (Some true) None).
Proof.
  destruct (connect_cases n iface pw w) as [(Ho & Hp & E)|(command & E & _)].
  - exists []. rewrite E, logged_nil. simpl. repeat split; auto.
  - exists [EvExec command]. rewrite E. simpl. split; [reflexivity|].
    split; [right; now exists command|]. split; [|discriminate].
    split; [discriminate|]. intros [Ho Hp].
    rewrite (connect_without_password n iface pw w Ho Hp) in E.
    injection E as _ E. apply (f_equal log) in E. simpl in E.
    symmetry in E. rewrite <- (app_nil_r (log w)) in E at 2.
    apply app_inv_head in E. discriminate E.
Qed.

Lemma logged_one_inj (a b : Event) (w : World) :
  logged [a] w = logged [b] w -> a = b.
Proof.
  intros H. apply (f_equal log) in H. simpl in H.
  apply app_inv_head in H. now injection H.
Qed.

Lemma logged_one_changes (a : Event) (w : World) : w <> logged [a] w.
Proof.
  intros H. apply (f_equal log) in H. simpl in H.
  rewrite <- (app_nil_r (log w)) in H at 1.
  apply app_inv_head in H. discriminate H.
Qed.

(** X10.  A connection is reported as successful exactly when a
    command was run and the operating system accepted it: a success
    needs such a command, and a call that ran a command which was
    accepted cannot report a failure.  The message of a success
    names the network. *)
Theorem success_needs_accepted_command (n : WiFiNetwork) (iface : string)
    (pw : option string) (w : World) :
  (success (fst (connect n iface pw w)) = true <->
   exists command out,
     snd (connect n iface pw w) = logged [EvExec command] w /\
     execSync command = Scanner.Stdout out) /\
  (success (fst (connect n iface pw w)) = true ->
   fst (connect n iface pw w)
   = mkResult true ("Connected to " +:+ ssid n) None None).
Proof.
  destruct (connect_cases n iface pw w) as [(_ & _ & E)|(command & E & _)];
    rewrite E; cbn [fst snd].
  - split; [|discriminate]. split; [discriminate|].
    intros (command & out & H & _). now apply logged_one_changes in H.
  - split.
    + split.
      * intros Hok. destruct (execSync command) as [out|err] eqn:Ex.
        -- now exists command, out.
        -- simpl in Hok. now rewrite ConnectorTheorems.classifyError_fails in Hok.
      * intros (command' & out & H & Hx).
        apply logged_one_inj in H. injection H as ->. now rewrite Hx.
    + destruct (execSync command) as [out|err]; [reflexivity|].
      simpl. now rewrite ConnectorTheorems.classifyError_fails.
Qed.

(** X11.  When the operating system reports a failed command with a
    text that repeats the command (as the error of a non-zero exit
    does), the raw text is never shown: the command itself contains
    the word network, so every failure is reported with one of three
    fixed messages. *)
Theorem echoed_command_masks_raw_error (n : WiFiNetwork) (iface : string)
    (pw : option string) (w : World) :
  (forall command err,
      execSync command = Scanner.Throws err -> occursIn command err) ->
  success (fst (connect n iface pw w)) = false ->
  message (fst (connect n iface pw w)) = "Password required for this network" \/
  message (fst (connect n iface pw w))
  = "Incorrect password or authentication failed" \/
  message (fst (connect n iface pw w)) = "Network not available".
Proof.
  intros Hecho Hko.
  destruct (connect_cases n iface pw w) as [(_ & _ & E)|(command & E & Hnet)];
    rewrite E in *; simpl in *; [now left|].
  destruct (execSync command) as [out|err] eqn:Ex; simpl in *; [discriminate Hko|].
  right. apply classifyError_masks.
  eapply occursIn_trans; [exact Hnet | exact (Hecho command err Ex)].
Qed.

End WithPlatform.

(** X12.  The escaping of a password loses nothing and adds nothing
    it need not: two different passwords never give the same escaped
    text, and a password without double quote, dollar sign and
    backtick is passed as it is (a backslash included). *)
Theorem escapePassword_faithful (a b : string) :
  (escapePassword a = escapePassword b -> a = b) /\
  ((forall p c q, a = p +:+ String c q -> isShellMeta c = false) ->
   escapePassword a = a).
Proof.
  rewrite !escapePassword_escapeEach. split.
  - apply escapeEach_inj.
  - apply escapeEach_plain.
Qed.

Lemma open_network_ignores_password_witness :
  connectToNetwork osAccepts cafeWifi "en0" (Some "typed") emptyWorld
  = connectToNetwork osAccepts cafeWifi "en0" None emptyWorld.
Proof.
  apply (open_network_ignores_password osAccepts cafeWifi "en0"
           (Some "typed") None emptyWorld).
  reflexivity.
Defined.

Lemma echoed_command_masks_raw_error_witness :
  message (fst (connectToNetwork osEchoes homeNet "en0" (Some "wrong") emptyWorld))
  = "Network not available".
Proof.
  assert (Hecho : forall command err,
             osEchoes command = Scanner.Throws err -> occursIn command err).
  { intros command err H. injection H as <-.
    exists "Error: Command failed: ", EmptyString. now rewrite append_empty_r. }
  destruct (echoed_command_masks_raw_error osEchoes homeNet "en0" (Some "wrong")
              emptyWorld Hecho eq_refl) as [H|[H|H]];
    [discriminate H | discriminate H | exact H].
Defined.

Lemma escapePassword_faithful_witness : escapePassword "a\b c" = "a\b c".
Proof.
  apply (proj2 (escapePassword_faithful "a\b c" EmptyString)).
  intros p c q H.
  destruct p as [|p0 [|p1 [|p2 [|p3 [|p4 [|p5 p]]]]]]; sapp; try discriminate H;
    injection H; intros; subst; reflexivity.
Defined.

End ConnectorExtras.

(** ** Saved passwords, the keychain and the signal icon *)

Module UtilsExtras.
Import JS Spec JSFacts App ConnectorFacts Storage.

Lemma storage_key_inj (a b : string) :
  STORAGE_KEY_PREFIX +:+ a = STORAGE_KEY_PREFIX +:+ b -> a = b.
Proof. apply String.app_inj. Qed.

Lemma storage_key_prefixed (name : string) :
  startsWith (STORAGE_KEY_PREFIX +:+ name) STORAGE_KEY_PREFIX = true.
Proof. apply prefix_append. Qed.

Lemma getSavedPassword_value (name : string) (w : World) :
  fst (getSavedPassword name w) = orNull (storage w !! (STORAGE_KEY_PREFIX +:+ name)).
Proof. reflexivity. Qed.

Lemma hasSavedPassword_value (name : string) (w : World) :
  fst (hasSavedPassword name w)
  = match fst (getSavedPassword name w) with Some _ => true | None => false end.
Proof. reflexivity. Qed.

(** X13.  Saving and reading back: after a password is saved under a
    network name, the lookup for that name returns it (an empty
    password counts as none, and then the network has no saved
    password); the lookups for all other names are not affected. *)
Theorem saved_password_round_trip (name password : string) (w : World) :
  let w' := snd (savePassword name password w) in
  fst (getSavedPassword name w') = orNull (Some password) /\
  (fst (hasSavedPassword name w') = true <-> password <> EmptyString) /\
  (forall other, other <> name ->
     fst (getSavedPassword other w') = fst (getSavedPassword other w)).
Proof.
  intros w'. rewrite hasSavedPassword_value, !getSavedPassword_value.
  subst w'. simpl storage. rewrite lookup_insert_eq. split; [reflexivity|]. split.
  - destruct password; simpl; split; congruence.
  - intros other Hne. rewrite !getSavedPassword_value. simpl storage.
    rewrite lookup_insert_ne; [reflexivity|].
    intros E. apply Hne. symmetry. exact (storage_key_inj _ _ E).
Qed.

(** X14.  Forgetting: after the password of a network is forgotten the
    lookup for that network returns none and the network counts as
    having no saved password; the lookups for all other names are not
    affected; and forgetting a network that has no entry changes
    nothing. *)
Theorem forgotten_password_is_gone (name : string) (w : World) :
  let w' := snd (forgetPassword name w) in
  fst (getSavedPassword name w') = None /\
  fst (hasSavedPassword name w') = false /\
  (forall other, other <> name ->
     fst (getSavedPassword other w') = fst (getSavedPassword other w)) /\
  (storage w !! (STORAGE_KEY_PREFIX +:+ name) = None -> storage w' = storage w).
Proof.
  intros w'. rewrite hasSavedPassword_value, !getSavedPassword_value.
  subst w'. simpl storage. rewrite lookup_delete_eq.
  split; [reflexivity|]. split; [reflexivity|]. split.
  - intros other Hne. rewrite !getSavedPassword_value. simpl storage.
    rewrite lookup_delete_ne; [reflexivity|].
    intros E. apply Hne. symmetry. exact (storage_key_inj _ _ E).
  - apply delete_id.
Qed.

(** The loop removes exactly the listed keys and touches nothing else. *)
Lemma removeItems_spec (keys : list string) :
  forall w,
    (forall k, storage (snd (removeItems keys w)) !! k
               = if decide (k ∈ keys) then None else storage w !! k) /\
    cache (snd (removeItems keys w)) = cache w /\
    log (snd (removeItems keys w)) = log w /\
    clock (snd (removeItems keys w)) = clock w.
Proof.
  induction keys as [|key rest IH]; intros w.
  - split; [|now repeat split]. intros k.
    destruct (decide (k ∈ [])) as [H|_]; [|reflexivity].
    now apply not_elem_of_nil in H.
  - change (removeItems (key :: rest) w)
      with (removeItems rest (snd (withStorage (delete key) w))).
    destruct (IH (snd (withStorage (delete key) w))) as (Hs & Hc & Hl & Ht).
    split; [|now rewrite Hc, Hl, Ht]. intros k. rewrite Hs. simpl storage.
    destruct (decide (k ∈ rest)) as [Hin|Hnin].
    + rewrite decide_True by (now right). reflexivity.
    + destruct (decide (k = key)) as [->|Hne].
      * rewrite decide_True by left. apply lookup_delete_eq.
      * rewrite decide_False.
        -- now apply lookup_delete_ne.
        -- intros [E|E]%elem_of_cons; contradiction.
  Qed.

(** X15.  Clearing all passwords: afterwards no network has a saved
    password, every entry of the store whose key does not start with
    the password prefix is still there with its value, and the cache
    and the trace are untouched. *)
Theorem clearAllPasswords_clears_only_passwords (w : World) :
  let w' := snd (clearAllPasswords w) in
  (forall name, fst (getSavedPassword name w') = None) /\
  (forall key, startsWith key STORAGE_KEY_PREFIX = false ->
               storage w' !! key = storage w !! key) /\
  cache w' = cache w /\ log w' = log w.
Proof.
  intros w'. subst w'. unfold clearAllPasswords.
  set (keys := List.filter _ _).
  destruct (removeItems_spec keys w) as (Hs & Hc & Hl & _).
  assert (Hkeys : forall k, k ∈ keys <->
                    is_Some (storage w !! k) /\ startsWith k STORAGE_KEY_PREFIX = true).
  { intros k. subst keys. rewrite list_elem_of_In, filter_In, <- list_elem_of_In.
    change (map fst (map_to_list (storage w))) with ((map_to_list (storage w)).*1).
    rewrite list_elem_of_fmap. split.
    - intros [([k' v] & -> & Hin) Hp]. split; [|exact Hp].
      apply elem_of_map_to_list in Hin. now exists v.
    - intros [[v Hv] Hp]. split; [|exact Hp].
      exists (k, v). split; [reflexivity|]. now apply elem_of_map_to_list. }
  split; [|split; [|split]]; auto.
  - intros name. rewrite getSavedPassword_value, Hs.
    destruct (decide (_ ∈ keys)) as [Hin|Hnin]; [reflexivity|].
    destruct (storage w !! (STORAGE_KEY_PREFIX +:+ name)) as [v|] eqn:E; [|reflexivity].
    elim Hnin. apply Hkeys. split; [now exists v | apply storage_key_prefixed].
  - intros key Hp. rewrite Hs.
    destruct (decide (key ∈ keys)) as [Hin|Hnin]; [|reflexivity].
    apply Hkeys in Hin as [_ Hp']. congruence.
Qed.

(** *** The keychain *)

Lemma trimEnd_head (c : ascii) (r : string) :
  isWhiteSpace c = false -> exists r', trimEnd (String c r) = String c r'.
Proof.
  intros Hc. simpl. destruct (trimEnd r); [|eauto].
  rewrite Hc. eauto.
Qed.

Lemma trimStart_head (s : string) (c : ascii) (r : string) :
  trimStart s = String c r -> isWhiteSpace c = false.
Proof.
  induction s as [|d s IH]; simpl; [discriminate|].
  destruct (isWhiteSpace d) eqn:E; [exact IH|]. intros H. injection H as <- _. exact E.
Qed.

Lemma trimEnd_idem (s : string) : trimEnd (trimEnd s) = trimEnd s.
Proof.
  induction s as [|c s IH]; [reflexivity|]. simpl.
  destruct (trimEnd s) as [|d r] eqn:E.
  - destruct (isWhiteSpace c) eqn:Ec; [reflexivity|]. simpl. now rewrite Ec.
  - change (trimEnd (String c (String d r)))
      with (match trimEnd (String d r) with
            | EmptyString => if isWhiteSpace c then EmptyString else String c EmptyString
            | r' => String c r'
            end).
    rewrite IH. reflexivity.
Qed.

Lemma trim_idem (s : string) : trim (trim s) = trim s.
Proof.
  unfold trim. destruct (trimStart s) as [|c r] eqn:E; [reflexivity|].
  destruct (trimEnd_head c r (trimStart_head s c r E)) as [r' Hr'].
  rewrite Hr'. simpl trimStart. rewrite (trimStart_head s c r E).
  rewrite <- Hr'. apply trimEnd_idem.
Qed.

(** X16.  What the keychain lookup returns is trimmed: a returned
    password is the output of the query without its leading and
    trailing white space, it is not empty, and trimming it again
    changes nothing (so a secret that begins or ends with white space
    cannot come back as it was stored). *)
Theorem keychain_password_is_trimmed (execSync : string -> Scanner.ExecResult)
    (quote : string -> string) (name : string) (w : World) (password : string) :
  fst (fetchPasswordFromKeychain execSync quote name w) = Some password ->
  (exists out,
     execSync ("security find-generic-password -wa " +:+ quote name)
     = Scanner.Stdout out /\ password = trim out) /\
  password <> EmptyString /\ trim password = password.
Proof.
  rewrite (ConnectorTheorems.fetchPassword_eq execSync quote name w). cbn [fst].
  destruct (execSync _) as [out|err]; [|discriminate].
  intros [H Hne]%orNull_Some. injection H as <-.
  split; [now exists out|]. split; [exact Hne | apply trim_idem].
Qed.

Lemma keychain_password_is_trimmed_witness : trim "hunter2" = "hunter2".
Proof.
  apply (keychain_password_is_trimmed osPrints (fun s => s) "HomeNet" emptyWorld).
  reflexivity.
Defined.

(** *** The signal icon *)

(** X17.  A stronger signal never shows fewer bars: the icon of a
    reading is a prefix of the icon of every reading at least as
    strong, every reading shows at least one bar, and the full icon is
    shown exactly from -50 dBm up. *)
Theorem signal_icon_monotone (a b : Z) :
  (a <= b ->
   String.prefix (Signal.getSignalIcon a) (Signal.getSignalIcon b) = true) /\
  Signal.getSignalIcon a <> EmptyString /\
  (Signal.getSignalIcon a = Signal.getSignalIcon (-50) <-> -50 <= a).
Proof.
  unfold Signal.getSignalIcon.
  destruct (-50 <=? a) eqn:A1; destruct (-60 <=? a) eqn:A2;
    destruct (-70 <=? a) eqn:A3; destruct (-50 <=? b) eqn:B1;
    destruct (-60 <=? b) eqn:B2; destruct (-70 <=? b) eqn:B3;
    (split; [intros H; try reflexivity; lia|]);
    (split; [discriminate|]); simpl; split; intros H;
    try reflexivity; try discriminate H; lia.
Qed.

Lemma signal_icon_monotone_witness :
  String.prefix (Signal.getSignalIcon (-71)) (Signal.getSignalIcon (-52)) = true.
Proof. apply (proj1 (signal_icon_monotone (-71) (-52))). lia. Defined.

End UtilsExtras.

(** ** The cache, the hook and the handlers of the command *)

Module AppExtras.
Import JS Spec JSFacts App ConnectorFacts.

Section WithPlatform.

Variable execSync : string -> Scanner.ExecResult.
Variable JSON_stringify : CachedData -> string.
Variable JSON_parse : string -> option CachedData.

Local Abbreviation read := (getCachedNetworks JSON_parse).
Local Abbreviation write := (setCachedNetworks JSON_stringify).
Local Abbreviation connect := (connectToNetwork execSync).
Local Abbreviation reload := (loadNetworks execSync JSON_stringify JSON_parse).
Local Abbreviation refresh := (forceRefresh execSync JSON_stringify JSON_parse).
Local Abbreviation handle := (handleConnect execSync JSON_stringify JSON_parse).

Lemma bind_eq {A B} (m : M A) (k : A -> M B) (w : World) :
  bind m k w = k (fst (m w)) (snd (m w)).
Proof. unfold bind. now destruct (m w). Qed.

(** The three ways a read of the cache can go. *)
Lemma read_cases (w : World) :
  (exists blob d,
      cache w !! CACHE_KEY = Some blob /\ JSON_parse blob = Some d /\
      version d = CACHE_VERSION /\ clock w - timestamp d < CACHE_DURATION /\
      read w = (Some d, w)) \/
  read w = (None, w) \/
  ((exists blob, cache w !! CACHE_KEY = Some blob /\ JSON_parse blob = None) /\
   read w = (None, logged [EvConsoleError "Failed to parse cached data:"] w)).
Proof.
  unfold getCachedNetworks.
  destruct (cache w !! CACHE_KEY) as [[|c b]|] eqn:Hslot; simpl; auto.
  destruct (JSON_parse (String c b)) as [d|] eqn:Hp.
  - destruct (version d =? CACHE_VERSION) eqn:Hv; simpl; auto.
    destruct (clock w - timestamp d <? CACHE_DURATION) eqn:Ht; auto.
    left. exists (String c b), d. repeat split; auto; lia.
  - right. right. split; [now exists (String c b) | reflexivity].
Qed.

Lemma read_some (w : World) (d : CachedData) :
  fst (read w) = Some d -> read w = (Some d, w).
Proof.
  destruct (read_cases w) as [(blob & d' & _ & _ & _ & _ & E)|[E|[_ E]]];
    rewrite E; simpl; intros H; [now injection H as <- | discriminate H..].
Qed.

Lemma read_none (w : World) :
  fst (read w) = None ->
  exists w', read w = (None, w') /\
             cache w' = cache w /\ storage w' = storage w /\ clock w' = clock w /\
             selectedNetwork w' = selectedNetwork w /\
             exists events, log w' = log w ++ events /\
               forall command, ~ In (EvExec command) events.
Proof.
  destruct (read_cases w) as [(blob & d' & _ & _ & _ & _ & E)|[E|[_ E]]];
    rewrite E; simpl; intros H; [discriminate H| |].
  - exists w. repeat split. exists []. split; [now rewrite app_nil_r | tauto].
  - eexists. split; [reflexivity|]. repeat split.
    eexists. split; [reflexivity|]. intros command [F|[]]. discriminate F.
Qed.

Lemma reload_miss (w w' : World) :
  read w = (None, w') -> reload w = (tt, rescanned execSync JSON_stringify w').
Proof.
  intros H. unfold loadNetworks, bind. rewrite H.
  unfold rescanned, scanEvents, runScan, runExec, bind, emit, ret, setIsLoading.
  simpl. destruct (execSync scanCommand); simpl; [reflexivity|].
  now rewrite <- app_assoc.
Qed.

Lemma reload_hit (w : World) (d : CachedData) :
  read w = (Some d, w) ->
  reload w = (tt, mkWorld (cache w) (storage w) (clock w) (networks d) false
                          (currentSSID d) (selectedNetwork w) (log w)).
Proof. intros H. unfold loadNetworks, bind. now rewrite H. Qed.

Lemma scanEvents_first :
  exists tail, scanEvents execSync = EvExec scanCommand :: tail.
Proof. unfold scanEvents. destruct (execSync scanCommand); eauto. Qed.

(** X18.  Whatever a read of the cache returns is what the slot
    holds, carries the version of the running code and is younger
    than 5000 ms; and a read never changes the slot: an expired, an
    outdated or an unreadable entry is reported as absent but stays
    where it is. *)
Theorem cache_read_is_sound_and_read_only (w : World) :
  (forall d, fst (read w) = Some d ->
     (exists blob, cache w !! CACHE_KEY = Some blob /\ JSON_parse blob = Some d) /\
     version d = CACHE_VERSION /\ clock w - timestamp d < CACHE_DURATION /\
     snd (read w) = w) /\
  cache (snd (read w)) = cache w /\
  storage (snd (read w)) = storage w.
Proof.
  destruct (read_cases w) as [(blob & d & Hs & Hp & Hv & Ht & E)|[E|[_ E]]];
    rewrite E; simpl; (split; [|now split]).
  - intros d' H. injection H as <-. split; [now exists blob | auto].
  - discriminate.
  - discriminate.
Qed.

(** X19.  The cache is one slot that is overwritten wholesale: of
    two writes in a row only the second leaves its mark, a write
    after an invalidation is the same as the write alone, an
    invalidation after a write is the same as the invalidation
    alone, and no write or invalidation touches another key of the
    cache. *)
Theorem cache_slot_is_overwritten (nets1 nets2 : list WiFiNetwork)
    (current1 current2 : string) (w : World) :
  snd (write nets2 current2 (snd (write nets1 current1 w)))
  = snd (write nets2 current2 w) /\
  snd (write nets2 current2 (snd (clearNetworksCache w)))
  = snd (write nets2 current2 w) /\
  snd (clearNetworksCache (snd (write nets1 current1 w)))
  = snd (clearNetworksCache w) /\
  (forall key, key <> CACHE_KEY ->
     cache (snd (write nets1 current1 w)) !! key = cache w !! key /\
     cache (snd (clearNetworksCache w)) !! key = cache w !! key).
Proof.
  simpl. rewrite insert_insert_eq, insert_delete_eq, delete_insert_eq.
  repeat split.
  - now apply lookup_insert_ne.
  - now apply lookup_delete_ne.
Qed.

(** X20.  A reload that finds a usable entry in the cache runs no
    scan: it shows the networks and the current network of the
    entry, ends the loading state, and leaves the cache, the saved
    passwords and the trace as they were. *)
Theorem reload_uses_fresh_cache (w : World) (d : CachedData) :
  fst (read w) = Some d ->
  snd (reload w)
  = mkWorld (cache w) (storage w) (clock w) (networks d) false
            (currentSSID d) (selectedNetwork w) (log w).
Proof.
  intros H. now rewrite (reload_hit w d (read_some w d H)).
Qed.

(** X21.  A reload that finds no usable entry scans once and stores
    what it shows: the slot then holds the new snapshot stamped with
    the time of the reload, the list shows the networks of that
    snapshot, the loading state is ended, and the saved passwords
    are left as they were. *)
Theorem reload_scans_and_caches (w : World) :
  fst (read w) = None ->
  let scan := Scanner.scanNetworksAndGetCurrent (execSync scanCommand) in
  let final := snd (reload w) in
  cache final !! CACHE_KEY
  = Some (JSON_stringify
            (mkCachedData CACHE_VERSION (Scanner.availableNetworks scan)
                          (Scanner.currentNetwork scan) (clock w))) /\
  hookNetworks final = Scanner.availableNetworks scan /\
  hookCurrentSSID final = Scanner.currentNetwork scan /\
  isLoading final = false /\
  storage final = storage w /\
  (exists before after,
      log final = log w ++ before ++ EvExec scanCommand :: after /\
      (forall command, ~ In (EvExec command) before) /\
      (forall command, ~ In (EvExec command) after)).
Proof.
  intros H scan final.
  destruct (read_none w H) as (w' & E & Hc & Hs & Ht & _ & events & Hl & Hno).
  subst final. rewrite (reload_miss w w' E). unfold rescanned. simpl.
  rewrite Ht, Hs, Hl. split; [apply lookup_insert_eq|]. repeat split.
  exists events. unfold scanEvents.
  destruct (execSync scanCommand).
  - exists []. rewrite <- app_assoc. split; [reflexivity|]. split; [exact Hno | tauto].
  - eexists. rewrite <- app_assoc. split; [reflexivity|].
    split; [exact Hno|]. intros command [F|[]]. discriminate F.
Qed.

(** X22.  A forced refresh always scans, whatever the cache holds:
    the first thing it does to the outside is to run the scan
    command, then the slot holds the new snapshot, and the success
    toast comes last. *)
Theorem forced_refresh_always_scans (w : World) :
  snd (refresh w)
  = logged [EvToast Success "Networks Refreshed" None]
      (rescanned execSync JSON_stringify w) /\
  exists tail, log (snd (refresh w)) = log w ++ EvExec scanCommand :: tail.
Proof.
  assert (Hclear : read (snd (clearNetworksCache w))
                   = (None, snd (clearNetworksCache w))).
  { apply CacheTheorems.read_absent. apply CacheTheorems.cleared_slot. }
  assert (E : snd (refresh w)
              = logged [EvToast Success "Networks Refreshed" None]
                  (rescanned execSync JSON_stringify w)).
  { unfold forceRefresh. rewrite !bind_eq.
    rewrite (reload_miss _ _ Hclear). unfold rescanned, logged. simpl.
    now rewrite insert_delete_eq. }
  split; [exact E|]. rewrite E. simpl.
  destruct scanEvents_first as [tail ->].
  eexists. now rewrite <- app_assoc.
Qed.

(** X23.  A failed scan is cached like any other: when the scan
    command throws, the reload stores the empty snapshot, and a
    reload within the next 5000 ms takes the empty list from the
    cache and does not run the scan again (given that the JSON of
    the runtime gives back the entry it serialized). *)
Theorem failed_scan_is_cached (w : World) (err : string) (t : Z) :
  let entry := mkCachedData CACHE_VERSION [] EmptyString (clock w) in
  execSync scanCommand = Scanner.Throws err ->
  fst (read w) = None ->
  JSON_parse (JSON_stringify entry) = Some entry ->
  JSON_parse EmptyString = None ->
  t - clock w < CACHE_DURATION ->
  let first := snd (reload w) in
  let second := snd (reload (setClock t first)) in
  hookNetworks first = [] /\
  hookNetworks second = [] /\ log second = log first /\ cache second = cache first.
Proof.
  intros entry Hthrow Hmiss Hrt Hempty Ht first second.
  destruct (read_none w Hmiss) as (w' & E & Hc & Hs & Hclock & _).
  assert (Hfirst : first = rescanned execSync JSON_stringify w').
  { subst first. now rewrite (reload_miss w w' E). }
  assert (Hslot : cache (setClock t first) !! CACHE_KEY
                  = Some (JSON_stringify entry)).
  { rewrite Hfirst. unfold rescanned. simpl. rewrite Hthrow, Hclock. simpl.
    apply lookup_insert_eq. }
  assert (Hne : JSON_stringify entry <> EmptyString).
  { intros F. rewrite F in Hrt. congruence. }
  assert (Hread : read (setClock t first) = (Some entry, setClock t first)).
  { rewrite (CacheTheorems.read_present JSON_parse (setClock t first)
               (JSON_stringify entry) entry Hslot Hne Hrt).
    simpl. now rewrite (proj2 (Z.ltb_lt _ _) Ht). }
  subst second. rewrite (reload_hit _ _ Hread). simpl.
  split; [|now repeat split].
  rewrite Hfirst. unfold rescanned. simpl. now rewrite Hthrow.
Qed.

End WithPlatform.

Lemma reload_uses_fresh_cache_witness :
  log (snd (loadNetworks osAccepts sampleStringify sampleParse cachedWorld)) = [] /\
  hookNetworks (snd (loadNetworks osAccepts sampleStringify sampleParse cachedWorld))
  = [homeNet; cafeWifi].
Proof.
  rewrite (reload_uses_fresh_cache osAccepts sampleStringify sampleParse
             cachedWorld cachedEntry eq_refl).
  split; reflexivity.
Defined.

Lemma reload_scans_and_caches_witness :
  hookNetworks (snd (loadNetworks osAccepts sampleStringify sampleParse emptyWorld))
  = [].
Proof.
  destruct (reload_scans_and_caches osAccepts sampleStringify sampleParse
              emptyWorld eq_refl) as (_ & H & _).
  exact H.
Defined.

Lemma failed_scan_is_cached_witness :
  log (snd (loadNetworks osRejects emptyStringify emptyParse
              (setClock 3000
                 (snd (loadNetworks osRejects emptyStringify emptyParse emptyWorld)))))
  = log (snd (loadNetworks osRejects emptyStringify emptyParse emptyWorld)).
Proof.
  destruct (failed_scan_is_cached osRejects emptyStringify emptyParse emptyWorld
              "Error: Command failed: authentication failed" 3000
              eq_refl eq_refl eq_refl eq_refl eq_refl) as (_ & _ & H & _).
  exact H.
Defined.

End AppExtras.

(** ** The connect handler and the QR code *)

Module CommandExtras.
Import JS Spec JSFacts App ConnectorFacts Command.

Lemma showsPasswordForm_iff (n : WiFiNetwork) (pw : option string) :
  showsPasswordForm n pw = true <->
  orNull pw = None /\ security n <> "Open" /\ security n <> "OPEN".
Proof.
  unfold showsPasswordForm. rewrite !andb_true_iff, !negb_true_iff.
  unfold strictEq. rewrite !String.eqb_neq.
  destruct pw as [[|c s]|]; simpl; intuition congruence.
Qed.

Lemma proceeds_with_password (n : WiFiNetwork) (pw : option string) :
  showsPasswordForm n pw = false -> isOpenNetwork n = false ->
  orNull pw <> None.
Proof.
  intros Hform Hopen Hpw.
  assert (showsPasswordForm n pw = true); [|congruence].
  apply showsPasswordForm_iff. split; [exact Hpw|].
  split; intros E;
    assert (isOpenNetwork n = true) by (apply isOpenNetwork_labels; auto);
    congruence.
Qed.

Section WithPlatform.

Variable execSync : string -> Scanner.ExecResult.
Variable JSON_stringify : CachedData -> string.
Variable JSON_parse : string -> option CachedData.
Variable JSON_stringify_string : string -> string.

Local Abbreviation handle := (handleConnect execSync JSON_stringify JSON_parse).
Local Abbreviation share := (handleShareQRCode execSync JSON_stringify_string).

(** What the handler does once it goes ahead. *)
Lemma handle_proceeds (iface : string) (n : WiFiNetwork) (pw : option string)
    (w : World) :
  showsPasswordForm n pw = false ->
  exists command,
    occursIn "/usr/sbin/networksetup -setairportnetwork " command /\
    snd (handle iface n pw w)
    = match execSync command with
      | Scanner.Throws err =>
          logged [connecting n; EvExec command;
                  EvToast Failure "Connection Failed"
                          (Some (message (classifyError err)))] w
      | Scanner.Stdout _ =>
          snd (setSelectedNetwork None
                 (rescanned execSync JSON_stringify
                    (snd (clearNetworksCache
                            (logged [connecting n; EvExec command;
                                     EvToast Success ("Connected to " +:+ ssid n)
                                             None] w)))))
      end.
Proof.
  intros Hform. unfold handleConnect. rewrite Hform.
  rewrite AppExtras.bind_eq.
  change (snd (showToast Animated ("Connecting to " +:+ ssid n +:+ "...") None w))
    with (logged [connecting n] w).
  rewrite AppExtras.bind_eq.
  assert (Hcmd : exists command,
             occursIn "/usr/sbin/networksetup -setairportnetwork " command /\
             connectToNetwork execSync n iface pw (logged [connecting n] w)
             = (outcome n (execSync command),
                logged [connecting n; EvExec command] w)).
  { destruct (isOpenNetwork n) eqn:Hopen.
    - exists (openCommand iface (ssid n)). split; [now eexists EmptyString, _|].
      rewrite (ConnectorTheorems.connect_open execSync n iface pw _ Hopen).
      now rewrite ConnectorTheorems.logged_logged.
    - destruct (orNull pw) as [p|] eqn:Hpw;
        [|now elim (proceeds_with_password n pw Hform Hopen)].
      apply orNull_Some in Hpw as [-> Hne].
      exists (securedCommand iface (ssid n) (escapePassword p)).
      split; [now eexists EmptyString, _|].
      rewrite (ConnectorTheorems.connect_secured execSync n iface p _ Hopen Hne).
      now rewrite ConnectorTheorems.logged_logged. }
  destruct Hcmd as (command & Hocc & ->). exists command. split; [exact Hocc|].
  cbn [fst snd].
  destruct (execSync command) as [out|err]; cbn [outcome success message negb].
  - rewrite !AppExtras.bind_eq.
    assert (Hclear : forall w0,
               getCachedNetworks JSON_parse (snd (clearNetworksCache w0))
               = (None, snd (clearNetworksCache w0))).
    { intros w0. apply CacheTheorems.read_absent, CacheTheorems.cleared_slot. }
    rewrite (AppExtras.reload_miss execSync JSON_stringify JSON_parse _ _
               (Hclear _)).
    simpl. now rewrite <- !app_assoc.
  - rewrite ConnectorTheorems.classifyError_fails. simpl.
    now rewrite <- !app_assoc.
Qed.

(** X24.  The connect action goes no further than the password form
    exactly when no usable password is at hand and the security
    label is neither Open nor OPEN; it then only selects the network
    for the form: no command is run, no toast is shown, the cache is
    untouched.  A network labelled None is such a case, although the
    connector itself treats that label as open. *)
Theorem connect_action_stops_at_password_form (iface : string)
    (n : WiFiNetwork) (pw : option string) (w : World) :
  (showsPasswordForm n pw = true <->
   orNull pw = None /\ security n <> "Open" /\ security n <> "OPEN") /\
  (showsPasswordForm n pw = true ->
   handle iface n pw w
   = (tt, mkWorld (cache w) (storage w) (clock w) (hookNetworks w) (isLoading w)
                  (hookCurrentSSID w) (Some n) (log w))) /\
  (security n = "None" -> orNull pw = None ->
   isOpenNetwork n = true /\ showsPasswordForm n pw = true).
Proof.
  split; [apply showsPasswordForm_iff|]. split.
  - intros H. unfold handleConnect. now rewrite H.
  - intros Hn Hpw. split.
    + apply isOpenNetwork_labels. auto.
    + apply showsPasswordForm_iff. rewrite Hn. repeat split; [exact Hpw|..];
        discriminate.
Qed.

(** X25.  The connect action never saves, changes or removes a
    stored password and never touches the clock; and when it goes
    ahead it runs exactly one association command, right after the
    toast that announces the attempt. *)
Theorem connect_action_keeps_saved_passwords (iface : string)
    (n : WiFiNetwork) (pw : option string) (w : World) :
  let final := snd (handle iface n pw w) in
  storage final = storage w /\ clock final = clock w /\
  (showsPasswordForm n pw = false ->
   exists command rest,
     occursIn "/usr/sbin/networksetup -setairportnetwork " command /\
     log final = log w ++ connecting n :: EvExec command :: rest /\
     forall c, In (EvExec c) rest -> c = scanCommand).
Proof.
  intros final. subst final.
  destruct (showsPasswordForm n pw) eqn:Hform.
  - unfold handleConnect. rewrite Hform. simpl. repeat split. discriminate.
  - destruct (handle_proceeds iface n pw w Hform) as (command & Hocc & ->).
    destruct (execSync command) as [out|err]; simpl;
      (split; [reflexivity|]); (split; [reflexivity|]); intros _;
      exists command; eexists; (split; [exact Hocc|]).
    + rewrite <- app_assoc. split; [reflexivity|].
      intros c [F|Hin]; [discriminate F|].
      unfold scanEvents in Hin. destruct (execSync scanCommand);
        simpl in Hin; destruct Hin as [F|Hin]; try (now injection F);
        try destruct Hin as [F|[]]; try discriminate F; try destruct Hin.
    + split; [reflexivity|]. intros c [F|[]]. discriminate F.
Qed.

(** X26.  How the connect action ends once it goes ahead.  When the
    operating system rejects the command, a failure toast with the
    classified message is all that is added: the cache, the list and
    the selected network (the open password form) stay as they
    were.  When it accepts, the password form is closed, the loading
    state is ended and the list shows the networks of a new scan. *)
Theorem connect_action_outcome (iface : string) (n : WiFiNetwork)
    (pw : option string) (w : World) :
  showsPasswordForm n pw = false ->
  let final := snd (handle iface n pw w) in
  exists command,
    In (EvExec command) (log final) /\
    match execSync command with
    | Scanner.Throws err =>
        final = logged [connecting n; EvExec command;
                        EvToast Failure "Connection Failed"
                                (Some (message (classifyError err)))] w
    | Scanner.Stdout _ =>
        selectedNetwork final = None /\ isLoading final = false /\
        hookNetworks final
        = Scanner.availableNetworks
            (Scanner.scanNetworksAndGetCurrent (execSync scanCommand))
    end.
Proof.
  intros Hform final. subst final.
  destruct (handle_proceeds iface n pw w Hform) as (command & _ & ->).
  exists command. destruct (execSync command) as [out|err]; simpl.
  - split; [|now repeat split].
    apply in_or_app. left. apply in_or_app. right. right. now left.
  - split; [|reflexivity]. apply in_or_app. right. right. now left.
Qed.

Lemma bindC_eq {A B} (m : C A) (k : A -> C B) (s : CommandState) :
  bindC m k s = k (fst (m s)) (snd (m s)).
Proof. unfold bindC. now destruct (m s). Qed.

Lemma lift_eq {A} (m : M A) (s : CommandState) :
  lift m s = (fst (m (world s)), mkCommandState (snd (m (world s))) (qrCodeData s)).
Proof. unfold lift. now destruct (m (world s)). Qed.

Lemma restoreRaycastFocus_eq (w : World) :
  Keychain.restoreRaycastFocus execSync w = (tt, logged (focusEvents execSync) w).
Proof.
  unfold Keychain.restoreRaycastFocus, focusEvents, runExec, bind, emit, ret, logged.
  destruct (execSync Keychain.openRaycast); simpl; [reflexivity|].
  now rewrite <- app_assoc.
Qed.

Lemma share_open (n : WiFiNetwork) (s : CommandState) :
  security n = "Open" \/ security n = "OPEN" ->
  share n s = (tt, mkCommandState (world s) (Some (n, EmptyString))).
Proof.
  intros H. unfold handleShareQRCode.
  assert (E : strictEq (security n) "Open" || strictEq (security n) "OPEN" = true).
  { apply orb_true_iff. unfold strictEq. rewrite !String.eqb_eq. exact H. }
  now rewrite E.
Qed.

Lemma share_secured (n : WiFiNetwork) (s : CommandState) :
  security n <> "Open" -> security n <> "OPEN" ->
  let query :=
    "security find-generic-password -wa " +:+ JSON_stringify_string (ssid n) in
  let fetched :=
    fst (fetchPasswordFromKeychain execSync JSON_stringify_string (ssid n)
           (world s)) in
  let final := snd (share n s) in
  exists last,
    world final
    = logged ([EvToast Animated "Fetching Password"
                       (Some "Retrieving password from Keychain...");
               EvExec query] ++ focusEvents execSync ++ [last]) (world s) /\
    match fetched with
    | Some password =>
        qrCodeData final = Some (n, password) /\
        render final = ShowQRCode n password /\
        last = EvToast Success "QR Code Ready" (Some "Generating QR code...")
    | None =>
        qrCodeData final = qrCodeData s /\
        (qrCodeData s = None -> render final = render s) /\
        exists text, last = EvToast Failure "Password Required" (Some text)
    end.
Proof.
  intros H1 H2 query fetched final.
  assert (E : strictEq (security n) "Open" || strictEq (security n) "OPEN" = false).
  { apply orb_false_iff. unfold strictEq. now rewrite !String.eqb_neq. }
  subst final. unfold handleShareQRCode. rewrite E.
  rewrite bindC_eq, lift_eq. cbn [fst snd world qrCodeData].
  rewrite bindC_eq, lift_eq. cbn [fst snd world qrCodeData].
  change (snd (showToast Animated "Fetching Password"
                 (Some "Retrieving password from Keychain...") (world s)))
    with (logged [EvToast Animated "Fetching Password"
                    (Some "Retrieving password from Keychain...")] (world s)).
  rewrite (ConnectorTheorems.fetchPassword_eq execSync JSON_stringify_string
             (ssid n) _).
  fold query. cbn [fst snd].
  assert (Hf : fetched = match execSync query with
                         | Scanner.Stdout out => orNull (Some (trim out))
                         | Scanner.Throws _ => None
                         end).
  { subst fetched.
    now rewrite (ConnectorTheorems.fetchPassword_eq execSync JSON_stringify_string
                   (ssid n) (world s)). }
  rewrite <- Hf. rewrite bindC_eq, lift_eq. cbn [fst snd world qrCodeData].
  rewrite restoreRaycastFocus_eq. cbn [fst snd].
  rewrite !ConnectorTheorems.logged_logged.
  destruct fetched as [password|] eqn:Efetched.
  - assert (Hne : password <> EmptyString).
    { intros ->. symmetry in Hf. revert Hf.
      destruct (execSync query); [apply orNull_not_empty | discriminate]. }
    destruct password as [|c p]; [now elim Hne|].
    eexists. rewrite bindC_eq, lift_eq. cbn [fst snd world qrCodeData].
    unfold setQrCodeData. cbn [fst snd world qrCodeData]. unfold showToast, emit.
    cbn [fst snd]. split; [|now repeat split].
    unfold logged. simpl. now rewrite <- !app_assoc.
  - eexists. rewrite lift_eq. cbn [fst snd world qrCodeData].
    unfold showToast, emit. cbn [fst snd]. split.
    + unfold logged. simpl. now rewrite <- !app_assoc.
    + split; [reflexivity|]. split; [|eauto].
      intros Hq. unfold render. simpl. now rewrite Hq.
Qed.

(** X27.  Sharing a network as a QR code.  For an open network
    (label Open or OPEN) the QR code is set up with the empty
    password at once: the keychain is not queried, no command is run
    and no toast is shown.  For any other network, after the toast
    the keychain is queried for the SSID and the focus is then given
    back to the application whether or not the query succeeded, and
    nothing but the trace changes in the world; when the query
    yields a password the QR code is set up with it and rendered,
    and when it does not a failure toast is shown and the screen
    stays as it was. *)
Theorem share_qr_code_flow (n : WiFiNetwork) (s : CommandState) :
  let query :=
    "security find-generic-password -wa " +:+ JSON_stringify_string (ssid n) in
  let fetched :=
    fst (fetchPasswordFromKeychain execSync JSON_stringify_string (ssid n)
           (world s)) in
  let final := snd (share n s) in
  (security n = "Open" \/ security n = "OPEN" ->
   final = mkCommandState (world s) (Some (n, EmptyString)) /\
   render final = ShowQRCode n EmptyString) /\
  (security n <> "Open" -> security n <> "OPEN" ->
   exists last,
     world final
     = logged ([EvToast Animated "Fetching Password"
                        (Some "Retrieving password from Keychain...");
                EvExec query] ++ focusEvents execSync ++ [last]) (world s) /\
     match fetched with
     | Some password =>
         qrCodeData final = Some (n, password) /\
         render final = ShowQRCode n password /\
         last = EvToast Success "QR Code Ready" (Some "Generating QR code...")
     | None =>
         qrCodeData final = qrCodeData s /\
         (qrCodeData s = None -> render final = render s) /\
         exists text, last = EvToast Failure "Password Required" (Some text)
     end).
Proof.
  intros query fetched final. split.
  - intros H. subst final. rewrite (share_open n s H). now split.
  - intros H1 H2. exact (share_secured n s H1 H2).
Qed.

End WithPlatform.

(** *** The text of the QR code *)

Import QRCodeView.

Lemma qr_security_type_cases (label : string) :
  getSecurityType label = "WPA" \/ getSecurityType label = "WEP" \/
  getSecurityType label = "nopass".
Proof.
  unfold getSecurityType.
  destruct (_ || _); [now left|].
  destruct (includes _ "WEP"); [now right; left|].
  destruct (_ || _); auto.
Qed.

(** X29.  The security type of the QR code is one of WPA, WEP and
    nopass; it is nopass exactly when the label in upper case is OPEN
    or NONE; and every network that the connector treats as open gets
    nopass. *)
Theorem qr_security_type (label : string) :
  (getSecurityType label = "WPA" \/ getSecurityType label = "WEP" \/
   getSecurityType label = "nopass") /\
  (getSecurityType label = "nopass" <->
   toUpperCase label = "OPEN" \/ toUpperCase label = "NONE") /\
  (forall n, security n = label -> isOpenNetwork n = true ->
             getSecurityType label = "nopass").
Proof.
  assert (Hiff : getSecurityType label = "nopass" <->
                 toUpperCase label = "OPEN" \/ toUpperCase label = "NONE").
  { unfold getSecurityType. split.
    - destruct (_ || _); [discriminate|].
      destruct (includes _ "WEP"); [discriminate|].
      destruct (strictEq (toUpperCase label) "OPEN") eqn:E1.
      + intros _. left. now apply String.eqb_eq.
      + destruct (strictEq (toUpperCase label) "NONE") eqn:E2; [|discriminate].
        intros _. right. now apply String.eqb_eq.
    - intros [-> | ->]; reflexivity. }
  split; [apply qr_security_type_cases|]. split; [exact Hiff|].
  intros n Hn Hopen. apply Hiff.
  apply isOpenNetwork_labels in Hopen. rewrite Hn in Hopen.
  destruct Hopen as [-> | [-> | ->]]; auto.
Qed.

Lemma unescape_escape (s : string) : unescapeField (escapeSpecialChars s) = s.
Proof.
  induction s as [|c s IH]; [reflexivity|]. simpl.
  destruct (isSpecialChar c) eqn:E.
  - simpl. now rewrite IH.
  - simpl. destruct (Ascii.eqb c backslash) eqn:Eb.
    + unfold isSpecialChar in E. rewrite Eb in E. discriminate E.
    + now rewrite IH.
Qed.

Lemma dropPrefix_app (p s : string) : dropPrefix p (p +:+ s) = Some s.
Proof.
  induction p as [|c p IH]; [reflexivity|]. sapp. simpl.
  now rewrite Ascii.eqb_refl.
Qed.

Lemma readPlain_app (t rest : string) :
  includes t ";" = false -> readPlain (t +:+ String ";" rest) = (t, rest).
Proof.
  induction t as [|c t IH]; intros H; [reflexivity|]. sapp.
  rewrite includes_cons in H. apply orb_false_iff in H as [Hc Ht].
  simpl readPlain. destruct (Ascii.eqb c ";") eqn:E.
  - apply Ascii.eqb_eq in E. subst c. simpl in Hc.
    destruct (ascii_dec ";" ";") as [_|F]; [|now elim F]. now destruct t.
  - now rewrite (IH Ht).
Qed.

Lemma readField_escaped (a rest : string) :
  readField (escapeSpecialChars a +:+ String ";" rest) = (a, rest).
Proof.
  induction a as [|c a IH]; [reflexivity|]. simpl escapeSpecialChars.
  destruct (isSpecialChar c) eqn:E; sapp.
  - change (readField (String backslash (String c (escapeSpecialChars a +:+ String ";" rest))))
      with (let (f, rest') := readField (escapeSpecialChars a +:+ String ";" rest) in
            (String c f, rest')).
    now rewrite IH.
  - unfold isSpecialChar in E. apply orb_false_iff in E as [E E6].
    apply orb_false_iff in E as [E E5]. apply orb_false_iff in E as [E E4].
    apply orb_false_iff in E as [E E3]. apply orb_false_iff in E as [E1 E2].
    simpl readField. rewrite E2, E1. now rewrite IH.
Qed.

(** X28.  The text of the QR code can be read back without loss: a
    reader that splits it at the semicolons that are not escaped and
    drops the escaping backslashes recovers the security type, the
    SSID and the password, whatever characters they contain; so two
    QR texts are equal only when these three are. *)
Theorem qr_text_round_trip (n : WiFiNetwork) (password : string) :
  decodeWifi (wifiString n password)
  = Some (getSecurityType (security n), ssid n, password) /\
  (forall n' password',
      wifiString n password = wifiString n' password' ->
      getSecurityType (security n) = getSecurityType (security n') /\
      ssid n = ssid n' /\ password = password').
Proof.
  assert (Hdec : forall m p,
             decodeWifi (wifiString m p)
             = Some (getSecurityType (security m), ssid m, p)).
  { intros m p. unfold wifiString, decodeWifi.
    rewrite dropPrefix_app.
    change (";S:" +:+ escapeSpecialChars (ssid m) +:+ ";P:"
              +:+ escapeSpecialChars p +:+ ";H:false;;")
      with (String ";" ("S:" +:+ escapeSpecialChars (ssid m)
                          +:+ String ";" ("P:" +:+ escapeSpecialChars p
                                            +:+ String ";" "H:false;;"))).
    rewrite readPlain_app by
      (destruct (qr_security_type_cases (security m)) as [-> | [-> | ->]];
       reflexivity).
    lazy beta iota. rewrite dropPrefix_app, readField_escaped.
    lazy beta iota. rewrite dropPrefix_app, readField_escaped.
    reflexivity. }
  split; [apply Hdec|].
  intros n' password' H. apply (f_equal decodeWifi) in H.
  rewrite !Hdec in H. now injection H.
Qed.

(** X30.  The escaping of the fields of the QR code can be undone:
    reading an escaped field back, with a backslash giving way to the
    code unit after it, returns the field; so two different fields
    never give the same escaped text, and no special character is
    left without its backslash. *)
Theorem qr_field_round_trip (a b : string) :
  unescapeField (escapeSpecialChars a) = a /\
  (escapeSpecialChars a = escapeSpecialChars b -> a = b) /\
  (forall p c q, escapeSpecialChars a = p +:+ String c q ->
                 isSpecialChar c = true -> c <> backslash ->
                 exists p', p = p' +:+ String backslash EmptyString).
Proof.
  split; [apply unescape_escape|]. split.
  - intros H. rewrite <- (unescape_escape a), <- (unescape_escape b). now rewrite H.
  - revert a. clear b. induction a as [|d a IH]; intros p c q H Hc Hnb; simpl in H.
    + destruct p; sapp; discriminate H.
    + destruct (isSpecialChar d) eqn:Hd.
      * destruct p as [|x [|y p]]; sapp.
        -- injection H as <- _. now elim Hnb.
        -- injection H as <- _ _. now exists EmptyString.
        -- injection H as <- <- H. destruct (IH _ _ _ H Hc Hnb) as [p' ->].
           exists (String backslash (String d p')). reflexivity.
      * destruct p as [|x p]; sapp.
        -- injection H as <- _. congruence.
        -- injection H as <- H. destruct (IH _ _ _ H Hc Hnb) as [p' ->].
           exists (String d p'). reflexivity.
Qed.

Lemma connect_action_outcome_witness :
  exists command,
    In (EvExec command)
       (log (snd (handleConnect osRejects sampleStringify sampleParse
                                "en0" homeNet (Some "wrong") cachedWorld))).
Proof.
  destruct (connect_action_outcome osRejects sampleStringify sampleParse
              "en0" homeNet (Some "wrong") cachedWorld eq_refl)
    as (command & Hin & _).
  now exists command.
Defined.

Lemma connect_action_stops_at_password_form_witness :
  isOpenNetwork cafeWifi = true /\ showsPasswordForm cafeWifi None = true.
Proof.
  destruct (connect_action_stops_at_password_form osAccepts sampleStringify
              sampleParse "en0" cafeWifi None emptyWorld) as (_ & _ & H).
  now apply H.
Defined.

Lemma share_qr_code_flow_witness :
  render (snd (handleShareQRCode osPrints (fun s => s)
                 (mkWiFiNetwork "Lobby" (-60) "Open" "11" "Lobby-11" false)
                 (mkCommandState emptyWorld None)))
  = ShowQRCode (mkWiFiNetwork "Lobby" (-60) "Open" "11" "Lobby-11" false)
               EmptyString.
Proof.
  apply (proj1 (share_qr_code_flow osPrints (fun s => s)
                  (mkWiFiNetwork "Lobby" (-60) "Open" "11" "Lobby-11" false)
                  (mkCommandState emptyWorld None))).
  left. reflexivity.
Defined.

End CommandExtras.
